(** * Retail product analytics: cleaning, feature engineering, aggregation

    A shallow embedding of [Untitled2.py], a pandas script that loads a
    product table, cleans three text columns into numbers, derives four
    columns, aggregates by category and brand, prints three insights and
    writes the table to a CSV file.

    A data frame is a list of named, typed columns.  Floats are modelled as
    the rationals extended with the two infinities and NaN: arithmetic on
    finite values is exact (no binary rounding, no overflow), arithmetic on
    the special values follows IEEE 754 as numpy applies it.  A missing value
    of a float column is NaN, as in pandas.

    Exact sums are the sums of the code only where binary64 does not round:
    the properties of the revenue totals are stated for revenues that are
    whole numbers with absolute values adding up to at most [2 ^ 53], and
    module [Binary64] reads the totals on IEEE 754 binary64 numbers, where
    they do round. *)

From Stdlib Require Import ZArith QArith Qround Qcanon List Bool Ascii String Lia.
From Stdlib Require Import DecimalString DecimalZ Permutation Sorted Lqa.
From Corelib Require PrimFloat.
Import ListNotations.

Open Scope string_scope.
Open Scope Z_scope.

(** ** Floats *)

Inductive float : Type :=
| Fin (q : Qc)
| PInf
| NInf
| NaN.

Definition float_of_Z (z : Z) : float := Fin (Q2Qc (inject_Z z)).

Definition Qc_sign (q : Qc) : comparison := Qccompare q (Q2Qc 0).

(** [np.isfinite] *)
Definition isfinite (x : float) : bool :=
  match x with Fin _ => true | _ => false end.

(** [pd.isna] on a float *)
Definition isnan (x : float) : bool :=
  match x with NaN => true | _ => false end.

Definition fneg (x : float) : float :=
  match x with
  | Fin q => Fin (Qcopp q)
  | PInf => NInf
  | NInf => PInf
  | NaN => NaN
  end.

(** Addition.  On finite values it is the exact sum.  Binary64 rounds a
    sum to 53 significant bits and overflows beyond about 1.8e308, so this
    is the sum the code computes only where the exact sum is a binary64
    number, as it is for whole numbers up to [2 ^ 53] in absolute value. *)
Definition fadd (x y : float) : float :=
  match x, y with
  | NaN, _ | _, NaN => NaN
  | Fin a, Fin b => Fin (Qcplus a b)
  | PInf, NInf | NInf, PInf => NaN
  | PInf, _ | _, PInf => PInf
  | NInf, _ | _, NInf => NInf
  end.

Definition fsub (x y : float) : float := fadd x (fneg y).

Definition fmul (x y : float) : float :=
  match x, y with
  | NaN, _ | _, NaN => NaN
  | Fin a, Fin b => Fin (Qcmult a b)
  | Fin a, PInf | PInf, Fin a =>
      match Qc_sign a with Gt => PInf | Lt => NInf | Eq => NaN end
  | Fin a, NInf | NInf, Fin a =>
      match Qc_sign a with Gt => NInf | Lt => PInf | Eq => NaN end
  | PInf, PInf | NInf, NInf => PInf
  | PInf, NInf | NInf, PInf => NInf
  end.

(** Division as numpy performs it on float64: a finite nonzero value over
    zero is an infinity, zero over zero is NaN.  The zero of the model is the
    positive zero. *)
Definition fdiv (x y : float) : float :=
  match x, y with
  | NaN, _ | _, NaN => NaN
  | Fin a, Fin b =>
      match Qc_sign b with
      | Eq => match Qc_sign a with Gt => PInf | Lt => NInf | Eq => NaN end
      | _ => Fin (Qcdiv a b)
      end
  | Fin _, PInf | Fin _, NInf => Fin (Q2Qc 0)
  | PInf, Fin b => match Qc_sign b with Lt => NInf | _ => PInf end
  | NInf, Fin b => match Qc_sign b with Lt => PInf | _ => NInf end
  | _, _ => NaN
  end.

(** [x >= y]; every comparison with NaN is false. *)
Definition fge (x y : float) : bool :=
  match x, y with
  | NaN, _ | _, NaN => false
  | Fin a, Fin b => match Qccompare a b with Lt => false | _ => true end
  | PInf, _ => true
  | _, NInf => true
  | _, _ => false
  end.

Definition fle (x y : float) : bool := fge y x.

Definition float_eqb (x y : float) : bool :=
  match x, y with
  | Fin a, Fin b => Qc_eq_bool a b
  | PInf, PInf | NInf, NInf | NaN, NaN => true
  | _, _ => false
  end.

(** ** Text *)

Definition is_digit (c : ascii) : bool :=
  let n := nat_of_ascii c in (48 <=? n)%nat && (n <=? 57)%nat.

Definition is_dot (c : ascii) : bool := Ascii.eqb c ".".

Definition is_comma (c : ascii) : bool := Ascii.eqb c ",".

(** The character class [[0-9.]] of the two regular expressions. *)
Definition in_class (c : ascii) : bool := is_digit c || is_dot c.

Fixpoint string_forallb (p : ascii -> bool) (s : string) : bool :=
  match s with
  | EmptyString => true
  | String c t => p c && string_forallb p t
  end.

Fixpoint string_filter (p : ascii -> bool) (s : string) : string :=
  match s with
  | EmptyString => EmptyString
  | String c t => if p c then String c (string_filter p t) else string_filter p t
  end.

(** [.str.replace(",", "", regex=False)] on one string *)
Definition str_replace_comma (s : string) : string :=
  string_filter (fun c => negb (is_comma c)) s.

(** The longest prefix of class characters. *)
Fixpoint take_class (s : string) : string :=
  match s with
  | String c t => if in_class c then String c (take_class t) else EmptyString
  | EmptyString => EmptyString
  end.

(** [.str.extract(r"([0-9.]+)")] on one string: the leftmost match of the
    greedy pattern, or no match. *)
Fixpoint str_extract (s : string) : option string :=
  match s with
  | EmptyString => None
  | String c t =>
      if in_class c then Some (String c (take_class t)) else str_extract t
  end.

(** Splits at the first decimal point. *)
Fixpoint split_dot (s : string) : string * option string :=
  match s with
  | EmptyString => (EmptyString, None)
  | String c t =>
      if is_dot c then (EmptyString, Some t)
      else let (a, b) := split_dot t in (String c a, b)
  end.

Definition Z_of_digits (s : string) : option Z :=
  match NilEmpty.uint_of_string s with
  | Some d => Some (Z.of_uint d)
  | None => None
  end.

(** The float denoted by a string over [[0-9.]], as Python's [float] and
    pandas' numeric parser both read it: digits, at most one decimal point,
    at least one digit.  [None] when the string is not a number ("1.2.3",
    "."). *)
Definition float_of_run (s : string) : option float :=
  let (ip, rest) := split_dot s in
  let fp := match rest with Some f => f | None => EmptyString end in
  if (0 <? String.length (ip ++ fp))%nat then
    match Z_of_digits (ip ++ fp) with
    | Some n => Some (Fin (Q2Qc (n # Z.to_pos (10 ^ Z.of_nat (String.length fp)))))
    | None => None
    end
  else None.

(** ** Series and data frames *)

(** One value of a table, as [to_csv] and [groupby] see it.  The missing
    value is the float NaN. *)
Inductive cell : Type :=
| CStr (s : string)
| CInt (z : Z)
| CFloat (x : float).

(** A column with its dtype: [object] holds text or a missing value,
    [int64] integers, [float64] floats. *)
Inductive Series : Type :=
| ObjectS (l : list (option string))
| Int64S (l : list Z)
| Float64S (l : list float).

Definition cell_of_object (o : option string) : cell :=
  match o with Some s => CStr s | None => CFloat NaN end.

Definition cells (s : Series) : list cell :=
  match s with
  | ObjectS l => map cell_of_object l
  | Int64S l => map CInt l
  | Float64S l => map CFloat l
  end.

Definition size (s : Series) : nat :=
  match s with
  | ObjectS l => List.length l
  | Int64S l => List.length l
  | Float64S l => List.length l
  end.

Definition isna (c : cell) : bool :=
  match c with CFloat NaN => true | _ => false end.

(** A data frame: the number of rows and the columns in order. *)
Record DataFrame : Type := mkDataFrame {
  nrows : nat;
  columns : list (string * Series)
}.

Definition column_names (df : DataFrame) : list string :=
  map fst (columns df).

(** Every column has one value per row and no name occurs twice. *)
Definition well_formed (df : DataFrame) : Prop :=
  NoDup (column_names df) /\
  Forall (fun c => size (snd c) = nrows df) (columns df).

(** ** Exceptions *)

Inductive exn : Type :=
| KeyError (k : string)
| ValueError
| TypeError
| AttributeError.

Inductive result (A : Type) : Type :=
| Ok (a : A)
| Raise (e : exn).

Arguments Ok {A} a.
Arguments Raise {A} e.

Definition bind {A B : Type} (r : result A) (k : A -> result B) : result B :=
  match r with
  | Ok a => k a
  | Raise e => Raise e
  end.

Notation "x <- r ;; k" := (bind r (fun x => k))
  (at level 61, r at next level, right associativity).

Fixpoint mapM {A B : Type} (f : A -> result B) (l : list A) : result (list B) :=
  match l with
  | [] => Ok []
  | a :: t => b <- f a ;; bs <- mapM f t ;; Ok (b :: bs)
  end.

(** ** Column access *)

Fixpoint lookup (k : string) (cols : list (string * Series)) : option Series :=
  match cols with
  | [] => None
  | (n, s) :: t => if String.eqb k n then Some s else lookup k t
  end.

(** [df[k]] *)
Definition getitem (df : DataFrame) (k : string) : result Series :=
  match lookup k (columns df) with
  | Some s => Ok s
  | None => Raise (KeyError k)
  end.

Fixpoint assign (k : string) (v : Series) (cols : list (string * Series))
  : list (string * Series) :=
  match cols with
  | [] => [(k, v)]
  | (n, s) :: t => if String.eqb k n then (n, v) :: t else (n, s) :: assign k v t
  end.

(** [df[k] = v]: an existing column is replaced in place, a new one is added
    after the last. *)
Definition setitem (df : DataFrame) (k : string) (v : Series) : DataFrame :=
  mkDataFrame (nrows df) (assign k v (columns df)).

(** ** Conversions between dtypes *)

Definition str_of_int (z : Z) : string := NilEmpty.string_of_int (Z.to_int z).

Definition b2z (b : bool) : Z := if b then 1 else 0.

(** Two functions of Python and pandas that the rational model of the
    floats cannot define are parameters of the development.

    [repr_finite] is Python's [repr] of a finite float: the shortest decimal
    text that reads back as the same binary64 value.

    [numeric_text] is what pandas' numeric parser makes of a text that has a
    character outside [[0-9.]] (a sign, an exponent, "inf", blanks,
    letters): the number read, NaN when the text is not a number. *)
Class PyText : Type := {
  repr_finite : Qc -> string;
  numeric_text : string -> float
}.

Section Pipeline.

Context {py : PyText}.

Definition str_of_float (x : float) : string :=
  match x with
  | Fin q => repr_finite q
  | PInf => "inf"
  | NInf => "-inf"
  | NaN => "nan"
  end.

(** [.astype(str)] *)
Definition astype_str (s : Series) : list string :=
  match s with
  | ObjectS l => map (fun o => match o with Some t => t | None => "nan" end) l
  | Int64S l => map str_of_int l
  | Float64S l => map str_of_float l
  end.

(** [pd.to_numeric(..., errors="coerce")] on one text. *)
Definition to_numeric_text (s : string) : float :=
  if string_forallb in_class s then
    match float_of_run s with Some x => x | None => NaN end
  else numeric_text s.

(** [pd.to_numeric(s, errors="coerce")]: numeric columns are returned as
    they are, text that is not a number becomes NaN.  Where every text of
    the column is an integer pandas returns an int64 column; the model keeps
    the same values in a float64 column. *)
Definition to_numeric_coerce (s : Series) : Series :=
  match s with
  | ObjectS l =>
      Float64S (map (fun o => match o with
                              | Some t => to_numeric_text t
                              | None => NaN
                              end) l)
  | _ => s
  end.

(** [.astype(float)] on the matches that [str.extract] returns: a missing
    match stays missing, a match is read by Python's [float], which raises
    [ValueError] on text that is not a number. *)
Definition float_of_match (o : option string) : result float :=
  match o with
  | None => Ok NaN
  | Some t => match float_of_run t with
              | Some x => Ok x
              | None => Raise ValueError
              end
  end.

Definition astype_float (matches : list (option string)) : result Series :=
  l <- mapM float_of_match matches ;; Ok (Float64S l).

(** The values of a numeric column as floats; arithmetic on an object
    column of text raises [TypeError].  An int64 value is read as the same
    whole number: the model has neither the rounding of an int64 beyond
    [2 ^ 53] to float64 nor the wrap-around of an int64 sum at [2 ^ 63]. *)
Definition as_floats (s : Series) : result (list float) :=
  match s with
  | ObjectS _ => Raise TypeError
  | Int64S l => Ok (map float_of_Z l)
  | Float64S l => Ok l
  end.

(** ** 3. Data cleaning and standardization *)

(** 3.1: [products["MRP_clean"]] is first the extracted text, then its
    numeric reading. *)
Definition clean_mrp (products : DataFrame) : result DataFrame :=
  mrp <- getitem products "MRP" ;;
  let products :=
    setitem products "MRP_clean"
      (ObjectS (map (fun t => str_extract (str_replace_comma t)) (astype_str mrp))) in
  extracted <- getitem products "MRP_clean" ;;
  Ok (setitem products "MRP_clean" (to_numeric_coerce extracted)).

(** 3.2 *)
Definition clean_sellprice (products : DataFrame) : result DataFrame :=
  sp <- getitem products "SellPrice" ;;
  Ok (setitem products "SellPrice" (to_numeric_coerce sp)).

(** 3.3 *)
Definition clean_discount (products : DataFrame) : result DataFrame :=
  d <- getitem products "Discount" ;;
  pct <- astype_float (map str_extract (astype_str d)) ;;
  Ok (setitem products "Discount_pct" pct).

(** 3.4: [products["Currancy"].astype(str).strip()].  A Series has no
    attribute [strip] (the string methods live under [.str]), so the
    attribute lookup raises before anything is assigned. *)
Definition clean_currency (products : DataFrame) : result DataFrame :=
  c <- getitem products "Currancy" ;;
  let _ := astype_str c in
  Raise AttributeError.

(** ** 4. Feature engineering *)

(** Element-wise arithmetic of two numeric columns of one table.  In the
    script the operands are float64 ([MRP_clean] always is), so is the
    result. *)
Definition series_binop (f : float -> float -> float) (a b : Series)
  : result Series :=
  x <- as_floats a ;;
  y <- as_floats b ;;
  Ok (Float64S (map (fun p => f (fst p) (snd p)) (combine x y))).

(** [products.loc[~np.isfinite(r), c] = np.nan] on the values of column [c] *)
Definition mask_nonfinite (r : list float) : list float :=
  map (fun x => if negb (isfinite x) then NaN else x) r.

Definition dropna (l : list float) : list float :=
  filter (fun x => negb (isnan x)) l.

Fixpoint insert_by {A : Type} (le : A -> A -> bool) (x : A) (l : list A) : list A :=
  match l with
  | [] => [x]
  | y :: t => if le x y then x :: l else y :: insert_by le x t
  end.

Definition sort_by {A : Type} (le : A -> A -> bool) (l : list A) : list A :=
  fold_right (insert_by le) [] l.

(** numpy's linear interpolation between two neighbours. *)
Definition lerp (a b : float) (t : Qc) : float :=
  let d := fsub b a in
  match Qccompare t (Q2Qc (1 # 2)) with
  | Lt => fadd a (fmul d (Fin t))
  | _ => fsub b (fmul d (Fin (Q2Qc 1 - t)%Qc))
  end.

(** [Series.quantile(q)] with the default linear interpolation: the missing
    values are dropped, the rest sorted, and the value at the fractional
    position [(n - 1) * q] interpolated between its neighbours.  NaN when
    nothing is left. *)
Definition quantile (l : list float) (q : Qc) : float :=
  let v := sort_by fle (dropna l) in
  match v with
  | [] => NaN
  | _ =>
      let n := Z.of_nat (List.length v) in
      let virtual := (Q2Qc (inject_Z (n - 1)) * q)%Qc in
      let previous := Qfloor virtual in
      let next := Z.min (previous + 1) (n - 1) in
      let gamma := (virtual - Q2Qc (inject_Z previous))%Qc in
      lerp (nth (Z.to_nat previous) v NaN) (nth (Z.to_nat next) v NaN) gamma
  end.

Definition feature_engineering (products : DataFrame) : result DataFrame :=
  mrp <- getitem products "MRP_clean" ;;
  sp <- getitem products "SellPrice" ;;
  dv <- series_binop fsub mrp sp ;;
  let products := setitem products "Discount_value" dv in
  dv <- getitem products "Discount_value" ;;
  mrp <- getitem products "MRP_clean" ;;
  ratio <- series_binop fdiv dv mrp ;;
  let products := setitem products "Discount_ratio" ratio in
  ratio <- getitem products "Discount_ratio" ;;
  r <- as_floats ratio ;;
  let products := setitem products "Discount_ratio" (Float64S (mask_nonfinite r)) in
  sp <- getitem products "SellPrice" ;;
  let products := setitem products "Revenue" sp in
  mrp <- getitem products "MRP_clean" ;;
  m <- as_floats mrp ;;
  let premium_cutoff := quantile m (Q2Qc (3 # 4)) in
  Ok (setitem products "Is_premium"
        (Int64S (map (fun x => b2z (fge x premium_cutoff)) m))).

(** ** 5. Category-level and brand-level analysis *)

Definition cell_eqb (a b : cell) : bool :=
  match a, b with
  | CStr s, CStr t => String.eqb s t
  | CInt x, CInt y => Z.eqb x y
  | CFloat x, CFloat y => float_eqb x y
  | _, _ => false
  end.

(** The order of the group keys: numbers before text. *)
Definition cell_leb (a b : cell) : bool :=
  match a, b with
  | CStr s, CStr t => String.leb s t
  | CInt x, CInt y => Z.leb x y
  | CFloat x, CFloat y => fle x y
  | CStr _, _ => false
  | _, CStr _ => true
  | CInt _, CFloat _ => true
  | CFloat _, CInt _ => false
  end.

(** The distinct values in order of first appearance. *)
Fixpoint unique (l : list cell) : list cell :=
  match l with
  | [] => []
  | c :: t => c :: filter (fun d => negb (cell_eqb d c)) (unique t)
  end.

Definition notna (c : cell) : bool := negb (isna c).

(** The keys of [groupby(k)]: with the defaults [dropna=True] and
    [sort=True] the rows whose key is missing are left out and the keys come
    sorted. *)
Definition group_keys (keys : list cell) : list cell :=
  sort_by cell_leb (unique (filter notna keys)).

(** The values of a column on the rows of group [k]. *)
Definition group_of {A : Type} (k : cell) (keys : list cell) (vals : list A)
  : list A :=
  map snd (filter (fun p => cell_eqb (fst p) k) (combine keys vals)).

(** ["nunique"]: the number of distinct values, the missing one not counted. *)
Definition nunique (l : list cell) : Z :=
  Z.of_nat (List.length (unique (filter notna l))).

(** The sum of the values from the first to the last, starting at 0. *)
Definition fsum (l : list float) : float :=
  fold_left fadd l (float_of_Z 0).

(** ["sum"]: missing values are skipped; the sum of nothing is 0. *)
Definition nansum (l : list float) : float := fsum (dropna l).

(** ["mean"]: missing values are skipped; the mean of nothing is missing. *)
Definition nanmean (l : list float) : float :=
  match dropna l with
  | [] => NaN
  | v => fdiv (fsum v) (float_of_Z (Z.of_nat (List.length v)))
  end.

Record CategoryRow : Type := mkCategoryRow {
  Category : cell;
  Products : Z;
  Total_Revenue : float;
  Avg_MRP : float;
  Avg_SellPrice : float;
  Avg_Discount_pct : float;
  Premium_share : float
}.

(** [sort_values(c, ascending=False)]: larger values first, missing values
    last.  The script leaves the sorting algorithm at its default, which
    does not fix the order of rows with equal values; the model keeps them
    in their order. *)
Definition desc_le (x y : float) : bool :=
  if isnan y then true else if isnan x then false else fge x y.

(** The named aggregations of one group: [Products], [Total_Revenue],
    [Avg_MRP], [Avg_SellPrice], [Avg_Discount_pct], [Premium_share]. *)
Definition category_row (keys pid : list cell) (rev mrp sp pct prem : list float)
           (k : cell) : CategoryRow :=
  mkCategoryRow k
    (nunique (group_of k keys pid))
    (nansum (group_of k keys rev))
    (nanmean (group_of k keys mrp))
    (nanmean (group_of k keys sp))
    (nanmean (group_of k keys pct))
    (nanmean (group_of k keys prem)).

Definition category_agg (products : DataFrame) : result (list CategoryRow) :=
  cat <- getitem products "Category" ;;
  pid <- getitem products "Product ID" ;;
  rev <- getitem products "Revenue" ;;
  rev <- as_floats rev ;;
  mrp <- getitem products "MRP_clean" ;;
  mrp <- as_floats mrp ;;
  sp <- getitem products "SellPrice" ;;
  sp <- as_floats sp ;;
  pct <- getitem products "Discount_pct" ;;
  pct <- as_floats pct ;;
  prem <- getitem products "Is_premium" ;;
  prem <- as_floats prem ;;
  let keys := cells cat in
  Ok (sort_by (fun a b => desc_le (Total_Revenue a) (Total_Revenue b))
        (map (category_row keys (cells pid) rev mrp sp pct prem)
             (group_keys keys))).

Record BrandRow : Type := mkBrandRow {
  BrandName : cell;
  Brand_Products : Z;
  Brand_Total_Revenue : float;
  Brand_Avg_MRP : float;
  Brand_Avg_Discount_pct : float
}.

Definition brand_row (keys pid : list cell) (rev mrp pct : list float)
           (k : cell) : BrandRow :=
  mkBrandRow k
    (nunique (group_of k keys pid))
    (nansum (group_of k keys rev))
    (nanmean (group_of k keys mrp))
    (nanmean (group_of k keys pct)).

Definition brand_agg (products : DataFrame) : result (list BrandRow) :=
  brand <- getitem products "BrandName" ;;
  pid <- getitem products "Product ID" ;;
  rev <- getitem products "Revenue" ;;
  rev <- as_floats rev ;;
  mrp <- getitem products "MRP_clean" ;;
  mrp <- as_floats mrp ;;
  pct <- getitem products "Discount_pct" ;;
  pct <- as_floats pct ;;
  let keys := cells brand in
  Ok (sort_by (fun a b => desc_le (Brand_Total_Revenue a) (Brand_Total_Revenue b))
        (map (brand_row keys (cells pid) rev mrp pct) (group_keys keys))).

(** ** 7. Business insights *)

(** [category_agg[c]]: a column of the summary with the group keys as its
    index. *)
Definition summary_column (t : list CategoryRow) (c : string)
  : result (list (cell * float)) :=
  let col f := Ok (map (fun r => (Category r, f r)) t) in
  if String.eqb c "Products" then col (fun r => float_of_Z (Products r))
  else if String.eqb c "Total_Revenue" then col Total_Revenue
  else if String.eqb c "Avg_MRP" then col Avg_MRP
  else if String.eqb c "Avg_SellPrice" then col Avg_SellPrice
  else if String.eqb c "Avg_Discount_pct" then col Avg_Discount_pct
  else if String.eqb c "Premium_share" then col Premium_share
  else Raise (KeyError c).

Definition fgt (x y : float) : bool := fge x y && negb (fge y x).

Fixpoint argmax_from (best : cell * float) (l : list (cell * float)) : cell :=
  match l with
  | [] => fst best
  | (k, v) :: t =>
      if fgt v (snd best) then argmax_from (k, v) t else argmax_from best t
  end.

(** [Series.idxmax()]: the label of the first occurrence of the largest
    value, missing values being skipped.  An empty column raises
    [ValueError]; a column with missing values only gives the missing label
    (pandas before 3.0). *)
Definition idxmax (s : list (cell * float)) : result cell :=
  match s with
  | [] => Raise ValueError
  | _ =>
      match filter (fun p => negb (isnan (snd p))) s with
      | [] => Ok (CFloat NaN)
      | b :: t => Ok (argmax_from b t)
      end
  end.

Definition insight (t : list CategoryRow) (c : string) : result cell :=
  s <- summary_column t c ;; idxmax s.

(** ** 8. Export *)

Record csv : Type := mkCsv {
  header : list string;
  records : list (list cell)
}.

Definition row_at (cols : list (string * Series)) (i : nat) : list cell :=
  map (fun c => nth i (cells (snd c)) (CFloat NaN)) cols.

(** [df.to_csv(path, index=index)]: a header row with the column names, one
    record per row; with [index] a leading column holds the row labels
    0, 1, ... under an empty name. *)
Definition to_csv (df : DataFrame) (index : bool) : csv :=
  let body := map (row_at (columns df)) (seq 0 (nrows df)) in
  if index then
    mkCsv ("" :: column_names df)
          (map (fun p => CInt (Z.of_nat (fst p)) :: snd p)
               (combine (seq 0 (nrows df)) body))
  else mkCsv (column_names df) body.

(** ** The script *)

Record output : Type := mkOutput {
  highest_discount : cell;
  premium_category : cell;
  top_revenue : cell;
  exported : csv
}.

(** Steps 3.1 to 3.3 on [products = data_raw.copy()]. *)
Definition clean_numeric (data_raw : DataFrame) : result DataFrame :=
  let products := data_raw in
  products <- clean_mrp products ;;
  products <- clean_sellprice products ;;
  clean_discount products.

(** Section 3 *)
Definition clean (data_raw : DataFrame) : result DataFrame :=
  products <- clean_numeric data_raw ;;
  clean_currency products.

Definition run (data_raw : DataFrame) : result output :=
  products <- clean data_raw ;;
  products <- feature_engineering products ;;
  category <- category_agg products ;;
  _ <- brand_agg products ;;
  hd <- insight category "Avg_Discount_pct" ;;
  pc <- insight category "Premium_share" ;;
  tr <- insight category "Total_Revenue" ;;
  Ok (mkOutput hd pc tr (to_csv products false)).

End Pipeline.

(** ** An instance for evaluation

    Plain decimal notation, which is what Python prints for floats of
    moderate size with few digits, and a numeric reading of text that knows
    a leading sign only. *)

Fixpoint frac_digits (fuel : nat) (r d : Z) : string :=
  match fuel with
  | O => ""
  | S f =>
      if r =? 0 then ""
      else str_of_int (10 * r / d) ++ frac_digits f ((10 * r) mod d) d
  end.

Definition plain_repr (q : Qc) : string :=
  let n := Qnum q in
  let d := Zpos (Qden q) in
  let r := Z.abs n mod d in
  (if n <? 0 then "-" else "") ++ str_of_int (Z.abs n / d) ++ "." ++
  (if r =? 0 then "0" else frac_digits 17 r d).

Definition signed_text (s : string) : float :=
  let read r := match float_of_run r with Some x => x | None => NaN end in
  match s with
  | String "-" r => fneg (read r)
  | String "+" r => read r
  | _ => NaN
  end.

Definition plain_text : PyText :=
  {| repr_finite := plain_repr; numeric_text := signed_text |}.

(** ** Definitions used to state the properties *)

(** The spec's reading of the extraction: [r] is the first maximal run of
    characters of the class in [s]. *)
Definition first_run (s r : string) : Prop :=
  exists pre post,
    s = pre ++ r ++ post /\
    string_forallb (fun c => negb (in_class c)) pre = true /\
    r <> EmptyString /\
    string_forallb in_class r = true /\
    (post = EmptyString \/ exists c t, post = String c t /\ in_class c = false).

Definition no_run (s : string) : Prop :=
  string_forallb (fun c => negb (in_class c)) s = true.

(** The names after [df[k] = v]. *)
Definition has_name (k : string) (names : list string) : bool :=
  existsb (String.eqb k) names.

Definition add_name (k : string) (names : list string) : list string :=
  if has_name k names then names else names ++ [k].

(** The row-wise reading of step 3.1. *)
Definition mrp_clean_text {py : PyText} (t : string) : float :=
  match str_extract (str_replace_comma t) with
  | Some r => to_numeric_text r
  | None => NaN
  end.

(** The spec's reading of step 3.1 on the text of one value: commas
    removed, the first maximal run of digits and points read as a float,
    missing when there is no run or the run is not a number. *)
Definition mrp_clean_spec (text : string) (x : float) : Prop :=
  let s := str_replace_comma text in
  (no_run s /\ x = NaN) \/
  (exists r, first_run s r /\
             match float_of_run r with Some y => x = y | None => x = NaN end).

(** A table of one product with the seven required columns. *)
Definition one_product (mrp discount : Series) : DataFrame :=
  mkDataFrame 1
    [("Product ID", Int64S [101]);
     ("Category", ObjectS [Some "Shoes"]);
     ("BrandName", ObjectS [Some "Acme"]);
     ("MRP", mrp);
     ("SellPrice", Int64S [800]);
     ("Discount", discount);
     ("Currancy", ObjectS [Some " Rs "])].

(** The scenario of the spec: three products in two categories. *)
Definition scenario : DataFrame :=
  mkDataFrame 3
    [("Product ID", Int64S [1; 2; 3]);
     ("Category", ObjectS [Some "A"; Some "A"; Some "B"]);
     ("BrandName", ObjectS [Some "x"; Some "x"; Some "y"]);
     ("MRP", ObjectS [Some "1,000"; Some "500"; Some "abc"]);
     ("SellPrice", Int64S [800; 500; 300]);
     ("Discount", ObjectS [Some "20% off"; Some "0% off"; Some "N/A"]);
     ("Currancy", ObjectS [Some "Rs"; Some "Rs"; Some "Rs"])].

(** The three prices of the spec's examples. *)
Definition price_examples : DataFrame :=
  mkDataFrame 3
    [("Product ID", Int64S [1; 2; 3]);
     ("Category", ObjectS [Some "A"; Some "A"; Some "B"]);
     ("BrandName", ObjectS [Some "x"; Some "x"; Some "y"]);
     ("MRP", ObjectS [Some "3,900"; Some "20% off"; Some "N/A"]);
     ("SellPrice", Int64S [800; 500; 300]);
     ("Discount", ObjectS [Some "20% off"; Some "0% off"; Some "N/A"]);
     ("Currancy", ObjectS [Some "Rs"; Some "Rs"; Some "Rs"])].

(** A table whose MRP column is already numeric. *)
Definition numeric_mrp : DataFrame :=
  one_product (Int64S [-5]) (ObjectS [Some "10% off"]).

(** The spec's reading of step 3.3 on the text of one Discount value: the
    first maximal run of digits and points of the text as it stands, read as
    a float; missing when there is no run. *)
Definition discount_pct_spec (text : string) (x : float) : Prop :=
  (no_run text /\ x = NaN) \/
  (exists r, first_run text r /\ float_of_run r = Some x).

(** The characters of a number written with separators. *)
Definition class_or_comma (c : ascii) : bool := in_class c || is_comma c.

(** A number written in groups of digits and points: the groups with a
    comma between them, and the groups put together. *)
Definition with_separators (groups : list string) : string :=
  String.concat "," groups.

Definition without_separators (groups : list string) : string :=
  String.concat "" groups.

Definition digit_groups (groups : list string) : Prop :=
  Forall (fun g => string_forallb in_class g = true) groups.

(** What may follow such a number: nothing, or a character that is neither
    of the class nor a comma. *)
Definition ends_number (post : string) : Prop :=
  post = EmptyString \/
  exists c t, post = String c t /\ class_or_comma c = false.

(** Four products whose price and discount are the same texts. *)
Definition comma_examples : DataFrame :=
  let texts := ObjectS [Some "1,500"; Some "1,500 off"; Some "Rs 1,500";
                        Some "1,500,000"] in
  mkDataFrame 4
    [("Product ID", Int64S [101; 102; 103; 104]);
     ("Category", ObjectS [Some "Shoes"; Some "Shoes"; Some "Bags"; Some "Bags"]);
     ("BrandName", ObjectS [Some "Acme"; Some "Acme"; Some "Acme"; Some "Acme"]);
     ("MRP", texts);
     ("SellPrice", Int64S [800; 800; 800; 800]);
     ("Discount", texts);
     ("Currancy", ObjectS [Some "Rs"; Some "Rs"; Some "Rs"; Some "Rs"])].



(** The spec's reading of the discount ratio of one row. *)
Definition discount_ratio_spec (mrp_clean sell_price : float) : float :=
  let q := fdiv (fsub mrp_clean sell_price) mrp_clean in
  if isfinite q then q else NaN.

Ltac bind_inv H :=
  match type of H with
  | bind ?r _ = Ok _ =>
      let E := fresh "E" in
      destruct r eqn:E; [cbn [bind] in H | discriminate H]
  end.

(** The whole number that a value of a numeric column stands for; [None]
    stands for a missing value. *)
Definition whole (x : float) (o : option Z) : Prop :=
  match o with
  | Some z => x = float_of_Z z
  | None => x = NaN
  end.

Definition whole_values (r : list float) (zs : list (option Z)) : Prop :=
  Forall2 whole r zs.

(** The values of a column on the rows that have a key: a product without
    Category, or without brand, is left out. *)
Fixpoint with_key {A : Type} (keys : list cell) (vals : list A) : list A :=
  match keys, vals with
  | k :: keys, v :: vals =>
      if isna k then with_key keys vals else v :: with_key keys vals
  | _, _ => []
  end.

(** The numbers that are present. *)
Definition present (zs : list (option Z)) : list Z :=
  flat_map (fun o => match o with Some z => [z] | None => [] end) zs.

(** The sum of whole numbers, which no order of adding changes. *)
Definition Zsum (l : list Z) : Z := fold_right Z.add 0 l.

(** The sum of the absolute values.  While it is at most [2 ^ 53], every sum
    of some of the numbers is a whole number that binary64 and int64 both
    hold: no addition rounds, overflows or wraps. *)
Definition abs_sum (zs : list (option Z)) : Z := Zsum (map Z.abs (present zs)).

Definition required_columns : list string :=
  ["Product ID"; "Category"; "BrandName"; "MRP"; "SellPrice"; "Discount";
   "Currancy"].

Definition derived_columns : list string :=
  ["MRP_clean"; "Discount_pct"; "Discount_value"; "Discount_ratio"; "Revenue";
   "Is_premium"].

Definition add_names (ds names : list string) : list string :=
  fold_left (fun acc d => add_name d acc) ds names.

(** What a sequence of assignments to the columns [touched] does to a
    table: same rows, the touched names added when new, every other column
    as it was, and a well-formed table stays well formed. *)
Definition frame (touched : list string) (a b : DataFrame) : Prop :=
  nrows b = nrows a /\
  column_names b = add_names touched (column_names a) /\
  (forall c, ~ In c touched -> getitem b c = getitem a c) /\
  (well_formed a -> well_formed b).

(** A table with [Revenue], a column of its own that is not one of the
    required ones. *)
Definition with_revenue_column : DataFrame :=
  mkDataFrame 1
    [("Product ID", Int64S [101]);
     ("Category", ObjectS [Some "Shoes"]);
     ("BrandName", ObjectS [Some "Acme"]);
     ("MRP", ObjectS [Some "1,000"]);
     ("SellPrice", Int64S [800]);
     ("Discount", ObjectS [Some "20% off"]);
     ("Currancy", ObjectS [Some "Rs"]);
     ("Revenue", ObjectS [Some "12 lakh"])].

(** The scenario after steps 3.1 to 3.3. *)
Definition scenario_cleaned : DataFrame :=
  mkDataFrame 3
    [("Product ID", Int64S [1; 2; 3]);
     ("Category", ObjectS [Some "A"; Some "A"; Some "B"]);
     ("BrandName", ObjectS [Some "x"; Some "x"; Some "y"]);
     ("MRP", ObjectS [Some "1,000"; Some "500"; Some "abc"]);
     ("SellPrice", Int64S [800; 500; 300]);
     ("Discount", ObjectS [Some "20% off"; Some "0% off"; Some "N/A"]);
     ("Currancy", ObjectS [Some "Rs"; Some "Rs"; Some "Rs"]);
     ("MRP_clean", Float64S [float_of_Z 1000; float_of_Z 500; NaN]);
     ("Discount_pct", Float64S [float_of_Z 20; float_of_Z 0; NaN])].

(** A cleaned table with a free product: its [MRP_clean] is 0. *)
Definition free_product_cleaned : DataFrame :=
  mkDataFrame 2
    [("Product ID", Int64S [1; 2]);
     ("Category", ObjectS [Some "A"; Some "A"]);
     ("MRP_clean", Float64S [float_of_Z 0; float_of_Z 1000]);
     ("SellPrice", Int64S [800; 800]);
     ("Discount_pct", Float64S [NaN; float_of_Z 20])].

(** A table after section 4 in which the second product has no Category
    and the first and the last tie on every column. *)
Definition products_missing_category : DataFrame :=
  mkDataFrame 4
    [("Product ID", Int64S [1; 2; 3; 4]);
     ("Category", ObjectS [Some "A"; None; Some "B"; Some "C"]);
     ("SellPrice", Float64S [float_of_Z 800; float_of_Z 500; NaN; float_of_Z 800]);
     ("MRP_clean", Float64S [float_of_Z 1000; float_of_Z 500; float_of_Z 400;
                             float_of_Z 1000]);
     ("Discount_pct", Float64S [float_of_Z 20; float_of_Z 0; NaN; float_of_Z 20]);
     ("Revenue", Float64S [float_of_Z 800; float_of_Z 500; NaN; float_of_Z 800]);
     ("Is_premium", Int64S [1; 0; 0; 1])].

Ltac no_dup_names :=
  repeat constructor; simpl; intuition discriminate.

(** ** The revenue totals in binary64

    The [Total_Revenue] of lines 173 to 184 on IEEE 754 binary64 numbers, the
    numbers of a float64 column: the same groups and the same order of the
    rows as in [category_agg], each group added up from its first row to
    its last with the missing values skipped.  A grouped sum of pandas may
    carry a running compensation term (Kahan summation); [compensated_sum]
    carries it, [sum] does not, and what is shown here holds for both. *)
Module Binary64.

#[local] Set Warnings "-inexact-float".

Import PrimFloat.

(** The values added from the first to the last, starting at 0. *)
Definition sum (l : list float) : float := fold_left add l zero.

(** One step of the compensated sum: the running sum and the compensation
    before and after the value [val]. *)
Definition compensated_step (state : float * float) (val : float) : float * float :=
  let (sumx, compensation) := state in
  let y := sub val compensation in
  let t := add sumx y in
  let c := sub (sub t sumx) y in
  (t, if is_nan c then zero else c).

Definition compensated_sum (l : list float) : float :=
  fst (fold_left compensated_step l (zero, zero)).

Definition skipna (l : list float) : list float :=
  filter (fun x => negb (is_nan x)) l.

(** [groupby(k).agg(Total_Revenue=("Revenue", "sum"))
    .sort_values("Total_Revenue", ascending=False)], the sum of a group
    taken by [group_sum]. *)
Definition total_revenue (group_sum : list float -> float)
           (keys : list cell) (revenue : list float) : list (cell * float) :=
  sort_by (fun a b => leb (snd b) (snd a))
    (map (fun k => (k, group_sum (skipna (group_of k keys revenue))))
         (group_keys keys)).

(** Three products, the first and the last of category A. *)
Definition categories : list cell := [CStr "A"; CStr "B"; CStr "A"].

Definition revenues : list float := [0.1; 0.3; 1.1]%float.

Definition category_totals : list (cell * float) :=
  [(CStr "A", 1.2000000000000002%float); (CStr "B", 0.3%float)].

Definition sum_of_totals : float := 1.5000000000000002%float.

Definition sum_of_revenues : float := 1.5%float.

(** The revenues of [products_missing_category], which are whole numbers,
    and the totals of its categories. *)
Definition whole_revenues : list float := [800; 500; nan; 800]%float.

Definition whole_totals : list (cell * float) :=
  [(CStr "A", 800%float); (CStr "C", 800%float); (CStr "B", 0%float)].

End Binary64.

(** ** Definitions used to state the further properties *)

(** A Discount text that step 3.3 can read: it has no run, or its first run
    is a number. *)
Definition valid_discount (t : string) : bool :=
  match str_extract t with
  | None => true
  | Some r => match float_of_run r with Some _ => true | None => false end
  end.

(** Missing, or a number that is not negative. *)
Definition nonneg_or_missing (x : float) : Prop :=
  match x with
  | NaN | PInf => True
  | Fin q => (Q2Qc 0 <= q)%Qc
  | NInf => False
  end.

(** The first of the columns read by steps 3.1 to 3.3 that a table lacks. *)
Definition first_missing (df : DataFrame) : option string :=
  find (fun k => negb (has_name k (column_names df)))
       ["MRP"; "SellPrice"; "Discount"].

(** A product without a price and without a discount text. *)
Definition unpriced_product : DataFrame :=
  one_product (ObjectS [None]) (Float64S [NaN]).


(** [a] may stand before [b] in a table sorted by descending revenue. *)
Definition revenue_desc (a b : float) : Prop := desc_le a b = true.

(** 6.1: [category_agg.reset_index().head(10)], the rows that the bar chart
    of the categories shows. *)
Definition head {A : Type} (n : nat) (l : list A) : list A := firstn n l.

Definition top_cat (category_agg : list CategoryRow) : list CategoryRow :=
  head 10 category_agg.

(** A table after section 4 with twelve categories, two more than the bar
    chart shows. *)
Definition products_twelve_categories : DataFrame :=
  let price := map float_of_Z [100; 200; 300; 400; 500; 600; 700; 800; 900; 1000;
                               1100; 1200] in
  mkDataFrame 12
    [("Product ID", Int64S [1; 2; 3; 4; 5; 6; 7; 8; 9; 10; 11; 12]);
     ("Category", ObjectS [Some "c01"; Some "c02"; Some "c03"; Some "c04"; Some "c05";
                           Some "c06"; Some "c07"; Some "c08"; Some "c09"; Some "c10";
                           Some "c11"; Some "c12"]);
     ("SellPrice", Float64S price);
     ("MRP_clean", Float64S price);
     ("Discount_pct", Float64S (map (fun _ => float_of_Z 0) price));
     ("Revenue", Float64S price);
     ("Is_premium", Int64S [0; 0; 0; 0; 0; 0; 0; 0; 0; 1; 1; 1])].

(** A table after section 4 with a product without brand. *)
Definition products_by_brand : DataFrame :=
  mkDataFrame 4
    [("Product ID", Int64S [1; 2; 3; 4]);
     ("BrandName", ObjectS [Some "x"; None; Some "y"; Some "x"]);
     ("SellPrice", Float64S [float_of_Z 800; float_of_Z 500; float_of_Z 300;
                             float_of_Z 100]);
     ("MRP_clean", Float64S [float_of_Z 1000; float_of_Z 500; NaN; float_of_Z 200]);
     ("Discount_pct", Float64S [float_of_Z 20; float_of_Z 0; NaN; float_of_Z 50]);
     ("Revenue", Float64S [float_of_Z 800; float_of_Z 500; float_of_Z 300;
                           float_of_Z 100]);
     ("Is_premium", Int64S [1; 0; 0; 0])].

(** * Properties *)

(** ** Floats *)

Lemma float_eqb_eq (x y : float) : float_eqb x y = true <-> x = y.
Proof.
  destruct x as [a| | |], y as [b| | |]; simpl; split; intro H;
    try reflexivity; try discriminate.
  - apply Qc_eq_bool_correct in H. now subst.
  - injection H as ->. unfold Qc_eq_bool.
    destruct (Qc_eq_dec b b); [reflexivity | contradiction].
Qed.

Lemma fadd_comm (x y : float) : fadd x y = fadd y x.
Proof.
  destruct x, y; simpl; try reflexivity.
  now rewrite Qcplus_comm.
Qed.

Lemma fadd_assoc (x y z : float) : fadd x (fadd y z) = fadd (fadd x y) z.
Proof.
  destruct x, y, z; simpl; try reflexivity.
  now rewrite Qcplus_assoc.
Qed.

Lemma float_of_Z_plus (a b : Z) :
  fadd (float_of_Z a) (float_of_Z b) = float_of_Z (a + b).
Proof.
  unfold float_of_Z. simpl. f_equal. apply Qc_is_canon.
  unfold Qcplus, Q2Qc. cbn [this]. rewrite !Qred_correct.
  now rewrite inject_Z_plus.
Qed.

Lemma fge_Fin (a b : Qc) : fge (Fin a) (Fin b) = true <-> (b <= a)%Qc.
Proof.
  simpl. rewrite (Qcge_alt a b). destruct (Qccompare a b); split; intro H;
    try reflexivity; try discriminate; try congruence.
Qed.

(** ** Text *)

Lemma take_class_forallb (s : string) : string_forallb in_class (take_class s) = true.
Proof.
  induction s as [|c t IH]; simpl; [reflexivity|].
  destruct (in_class c) eqn:E; simpl; [now rewrite E | reflexivity].
Qed.

Lemma take_class_app (a b : string) (c : ascii) :
  string_forallb in_class a = true -> in_class c = false ->
  take_class (a ++ String c b) = a.
Proof.
  intros Ha Hc. induction a as [|d t IH]; simpl in *.
  - now rewrite Hc.
  - apply andb_prop in Ha as [Hd Ht]. rewrite Hd. f_equal. now apply IH.
Qed.

Lemma take_class_all (a : string) :
  string_forallb in_class a = true -> take_class a = a.
Proof.
  induction a as [|d t IH]; simpl; [reflexivity|].
  intros H. apply andb_prop in H as [Hd Ht]. rewrite Hd. f_equal. now apply IH.
Qed.

Lemma str_extract_forallb (s r : string) :
  str_extract s = Some r -> string_forallb in_class r = true.
Proof.
  induction s as [|c t IH]; simpl; [discriminate|].
  destruct (in_class c) eqn:E.
  - intros [= <-]. simpl. rewrite E. apply take_class_forallb.
  - exact IH.
Qed.

Lemma take_class_split (s : string) :
  exists post,
    s = take_class s ++ post /\
    (post = EmptyString \/ exists c t, post = String c t /\ in_class c = false).
Proof.
  induction s as [|c t (post & Heq & Hpost)]; simpl.
  - exists EmptyString. split; [reflexivity | now left].
  - destruct (in_class c) eqn:E.
    + exists post. split; [simpl; now rewrite <- Heq | exact Hpost].
    + exists (String c t). split; [reflexivity | right; now exists c, t].
Qed.

Lemma str_extract_first_run (s r : string) :
  str_extract s = Some r -> first_run s r.
Proof.
  induction s as [|c t IH]; simpl; [discriminate|].
  destruct (in_class c) eqn:E.
  - intros [= <-]. destruct (take_class_split t) as (post & Heq & Hpost).
    exists EmptyString, post. repeat split.
    + simpl. now rewrite <- Heq.
    + discriminate.
    + simpl. rewrite E. apply take_class_forallb.
    + exact Hpost.
  - intros H. destruct (IH H) as (pre & post & Heq & Hpre & Hr & Hall & Hpost).
    exists (String c pre), post. repeat split; auto.
    + simpl. now rewrite Heq.
    + simpl. now rewrite E, Hpre.
Qed.

Lemma str_extract_none (s : string) : str_extract s = None <-> no_run s.
Proof.
  unfold no_run. induction s as [|c t IH]; simpl; [tauto|].
  destruct (in_class c); simpl; [split; discriminate | exact IH].
Qed.

Lemma first_run_unique (s r r' : string) :
  first_run s r -> first_run s r' -> r = r'.
Proof.
  intros (pre & post & -> & Hpre & Hr & Hall & Hpost).
  revert r r' post Hr Hall Hpost.
  induction pre as [|c pre IH]; intros r r' post Hr Hall Hpost
    (pre' & post' & Heq & Hpre' & Hr' & Hall' & Hpost').
  - simpl in Heq. destruct pre' as [|c' pre'].
    + simpl in Heq. clear Hpre Hpre'.
      revert r' Heq Hr' Hall'. induction r as [|a r IHr]; intros r' Heq Hr' Hall'.
      * contradiction.
      * destruct r' as [|a' r']; [contradiction|].
        simpl in Heq. injection Heq as <- Heq. f_equal.
        simpl in Hall, Hall'. apply andb_prop in Hall as [Ha Hall].
        apply andb_prop in Hall' as [_ Hall'].
        destruct r as [|b r], r' as [|b' r']; try reflexivity.
        -- simpl in Heq. destruct Hpost as [-> | (c & t & -> & Hc)]; [discriminate|].
           injection Heq as -> _. simpl in Hall'. now rewrite Hc in Hall'.
        -- simpl in Heq. destruct Hpost' as [-> | (c & t & -> & Hc)]; [discriminate|].
           injection Heq as <- _. simpl in Hall. now rewrite Hc in Hall.
        -- apply IHr; auto; discriminate.
    + destruct r as [|a r]; [contradiction|].
      simpl in Heq. injection Heq as -> _.
      simpl in Hall, Hpre'. apply andb_prop in Hall as [Ha _].
      now rewrite Ha in Hpre'.
  - simpl in Hpre. apply andb_prop in Hpre as [Hc Hpre].
    destruct pre' as [|c' pre'].
    + destruct r' as [|a r']; [contradiction|].
      simpl in Heq. injection Heq as -> _.
      simpl in Hall'. apply andb_prop in Hall' as [Ha _].
      now rewrite Ha in Hc.
    + simpl in Heq. injection Heq as _ Heq.
      simpl in Hpre'. apply andb_prop in Hpre' as [_ Hpre'].
      apply (IH Hpre r r' post Hr Hall Hpost).
      now exists pre', post'.
Qed.

(** ** Column access *)

Lemma lookup_assign_same (k : string) (v : Series) (cols : list (string * Series)) :
  lookup k (assign k v cols) = Some v.
Proof.
  induction cols as [|[n s] t IH]; simpl.
  - now rewrite String.eqb_refl.
  - destruct (String.eqb k n) eqn:E; simpl; now rewrite E.
Qed.

Lemma lookup_assign_other (k k' : string) (v : Series) (cols : list (string * Series)) :
  k' <> k -> lookup k' (assign k v cols) = lookup k' cols.
Proof.
  intros Hne. induction cols as [|[n s] t IH]; simpl.
  - apply String.eqb_neq in Hne. now rewrite Hne.
  - destruct (String.eqb k n) eqn:E; simpl.
    + apply String.eqb_eq in E. subst n.
      apply String.eqb_neq in Hne. now rewrite Hne.
    + now rewrite IH.
Qed.

Lemma getitem_setitem_same (df : DataFrame) (k : string) (v : Series) :
  getitem (setitem df k v) k = Ok v.
Proof. unfold getitem, setitem. simpl. now rewrite lookup_assign_same. Qed.

Lemma getitem_setitem_other (df : DataFrame) (k k' : string) (v : Series) :
  k' <> k -> getitem (setitem df k v) k' = getitem df k'.
Proof.
  intros H. unfold getitem, setitem. simpl. now rewrite lookup_assign_other.
Qed.

Lemma getitem_Ok (df : DataFrame) (k : string) (s : Series) :
  getitem df k = Ok s <-> lookup k (columns df) = Some s.
Proof.
  unfold getitem. destruct (lookup k (columns df)); split; congruence.
Qed.

Lemma lookup_In (k : string) (cols : list (string * Series)) (s : Series) :
  lookup k cols = Some s -> In (k, s) cols.
Proof.
  induction cols as [|[n c] t IH]; simpl; [discriminate|].
  destruct (String.eqb k n) eqn:E.
  - apply String.eqb_eq in E. intros [= ->]. left. now subst.
  - intros H. right. now apply IH.
Qed.

Lemma has_name_In (k : string) (names : list string) :
  has_name k names = true <-> In k names.
Proof.
  unfold has_name. rewrite existsb_exists. split.
  - intros (x & Hx & E). apply String.eqb_eq in E. now subst.
  - intros H. exists k. split; [exact H | apply String.eqb_refl].
Qed.

Lemma assign_names (k : string) (v : Series) (cols : list (string * Series)) :
  map fst (assign k v cols) = add_name k (map fst cols).
Proof.
  unfold add_name, has_name. induction cols as [|[n s] t IH]; [reflexivity|].
  cbn [assign map fst existsb]. destruct (String.eqb k n) eqn:E; cbn [orb].
  - reflexivity.
  - cbn [map fst]. rewrite IH. now destruct (existsb (String.eqb k) (map fst t)).
Qed.

Lemma setitem_names (df : DataFrame) (k : string) (v : Series) :
  column_names (setitem df k v) = add_name k (column_names df).
Proof. apply assign_names. Qed.

Lemma add_name_NoDup (k : string) (names : list string) :
  NoDup names -> NoDup (add_name k names).
Proof.
  intros H. unfold add_name. destruct (has_name k names) eqn:E; [exact H|].
  assert (Hn : ~ In k names).
  { intros Hi. apply has_name_In in Hi. congruence. }
  apply NoDup_rev in H. rewrite <- (rev_involutive (names ++ [k])).
  apply NoDup_rev. rewrite rev_app_distr. simpl. constructor; [|exact H].
  now rewrite <- in_rev.
Qed.

Lemma assign_Forall (P : string * Series -> Prop) (k : string) (v : Series)
      (cols : list (string * Series)) :
  P (k, v) -> Forall P cols -> Forall P (assign k v cols).
Proof.
  intros Hv H. induction H as [|[n s] t Hx Ht IH]; simpl.
  - constructor; [exact Hv | constructor].
  - destruct (String.eqb k n) eqn:E.
    + apply String.eqb_eq in E. subst n. constructor; assumption.
    + constructor; assumption.
Qed.

Lemma setitem_well_formed (df : DataFrame) (k : string) (v : Series) :
  well_formed df -> size v = nrows df -> well_formed (setitem df k v).
Proof.
  intros [Hnd Hsz] Hv. split.
  - rewrite setitem_names. now apply add_name_NoDup.
  - unfold setitem. simpl. now apply assign_Forall.
Qed.

Lemma getitem_size (df : DataFrame) (k : string) (s : Series) :
  well_formed df -> getitem df k = Ok s -> size s = nrows df.
Proof.
  intros [_ Hsz] H. apply getitem_Ok, lookup_In in H.
  rewrite Forall_forall in Hsz. exact (Hsz _ H).
Qed.

(** ** Reading numbers *)

Lemma append_empty_r (s : string) : s ++ EmptyString = s.
Proof. induction s as [|c t IH]; simpl; [reflexivity | now rewrite IH]. Qed.

Lemma append_assoc (a b c : string) : (a ++ b) ++ c = a ++ b ++ c.
Proof. induction a as [|x t IH]; simpl; [reflexivity | now rewrite IH]. Qed.

Lemma string_forallb_app (p : ascii -> bool) (a b : string) :
  string_forallb p (a ++ b) = string_forallb p a && string_forallb p b.
Proof.
  induction a as [|c t IH]; simpl; [reflexivity|].
  now rewrite IH, andb_assoc.
Qed.

Lemma string_forallb_impl (p q : ascii -> bool) (s : string) :
  (forall c, p c = true -> q c = true) ->
  string_forallb p s = true -> string_forallb q s = true.
Proof.
  intros Hpq. induction s as [|c t IH]; simpl; [reflexivity|].
  intros H. apply andb_prop in H as [Hc Ht]. now rewrite (Hpq _ Hc), IH.
Qed.

Lemma uint_of_string_digits (s : string) (d : Decimal.uint) :
  NilEmpty.uint_of_string s = Some d -> string_forallb is_digit s = true.
Proof.
  revert d. induction s as [|c t IH]; simpl; [reflexivity|].
  intros d. destruct (NilEmpty.uint_of_string t) as [d'|]; [|discriminate].
  intros H. rewrite (IH d' eq_refl), andb_true_r.
  apply uint_of_char_spec in H.
  repeat (destruct H as [[-> _]|H]; [reflexivity|]).
  now destruct H as [-> _].
Qed.

Lemma string_of_uint_digits (d : Decimal.uint) :
  string_forallb is_digit (NilEmpty.string_of_uint d) = true.
Proof. induction d; simpl; auto. Qed.

Lemma split_dot_spec (s : string) :
  let (a, r) := split_dot s in
  string_forallb (fun c => negb (is_dot c)) a = true /\
  s = a ++ match r with Some f => String "." f | None => EmptyString end.
Proof.
  induction s as [|c t IH]; simpl; [auto|].
  destruct (is_dot c) eqn:E.
  - split; [reflexivity|]. unfold is_dot in E. apply Ascii.eqb_eq in E. now subst.
  - destruct (split_dot t) as [a r]. destruct IH as [Ha Ht]. simpl.
    rewrite E, Ha. split; [reflexivity | now rewrite Ht at 1].
Qed.

Lemma split_dot_no_dot (s : string) :
  string_forallb (fun c => negb (is_dot c)) s = true -> split_dot s = (s, None).
Proof.
  induction s as [|c t IH]; simpl; [reflexivity|].
  intros H. apply andb_prop in H as [Hc Ht].
  apply negb_true_iff in Hc. now rewrite Hc, (IH Ht).
Qed.

Lemma is_digit_in_class (c : ascii) : is_digit c = true -> in_class c = true.
Proof. unfold in_class. now intros ->. Qed.

Lemma is_digit_not_dot (c : ascii) : is_digit c = true -> negb (is_dot c) = true.
Proof.
  intros H. unfold is_dot. destruct (Ascii.eqb c ".") eqn:E; [|reflexivity].
  apply Ascii.eqb_eq in E. subst. discriminate.
Qed.

(** What [float_of_run] reads is a nonempty string over the class. *)
Lemma float_of_run_class (s : string) (x : float) :
  float_of_run s = Some x ->
  string_forallb in_class s = true /\ s <> EmptyString.
Proof.
  unfold float_of_run. pose proof (split_dot_spec s) as Hs.
  destruct (split_dot s) as [a r]. destruct Hs as [_ Hs].
  set (fp := match r with Some f => f | None => EmptyString end).
  destruct (0 <? String.length (a ++ fp))%nat eqn:El; [|discriminate].
  unfold Z_of_digits.
  destruct (NilEmpty.uint_of_string (a ++ fp)) as [d|] eqn:Ed; [|discriminate].
  intros _. apply uint_of_string_digits in Ed.
  rewrite string_forallb_app in Ed. apply andb_prop in Ed as [Ha Hf].
  split.
  - rewrite Hs, string_forallb_app.
    rewrite (string_forallb_impl _ _ _ is_digit_in_class Ha). simpl.
    destruct r as [f|]; [|reflexivity]. simpl.
    now apply (string_forallb_impl _ _ _ is_digit_in_class).
  - intros ->. destruct a; [|discriminate]. destruct r; discriminate.
Qed.

Lemma str_of_int_nonneg (z : Z) :
  0 <= z ->
  exists d, str_of_int z = NilEmpty.string_of_uint d /\ Z.of_uint d = z /\
            d <> Decimal.Nil.
Proof.
  intros Hz. unfold str_of_int. pose proof (DecimalZ.of_to z) as H.
  destruct z as [|p|p]; [| |lia].
  - exists (Decimal.D0 Decimal.Nil). repeat split; discriminate.
  - simpl in *. exists (Pos.to_uint p). repeat split; [exact H|].
    intros E. rewrite E in H. discriminate.
Qed.

(** A non-negative integer printed and read back is the same number. *)
Lemma float_of_run_str_of_int (z : Z) :
  0 <= z -> float_of_run (str_of_int z) = Some (float_of_Z z).
Proof.
  intros Hz. destruct (str_of_int_nonneg z Hz) as (d & -> & Hd & Hnil).
  unfold float_of_run.
  rewrite split_dot_no_dot
    by (apply (string_forallb_impl _ _ _ is_digit_not_dot), string_of_uint_digits).
  rewrite append_empty_r.
  replace (0 <? String.length (NilEmpty.string_of_uint d))%nat with true.
  - unfold Z_of_digits. rewrite NilEmpty.usu, Hd. reflexivity.
  - symmetry. apply Nat.ltb_lt. destruct d; simpl; try lia. contradiction.
Qed.

(** ** Cleaning *)

Lemma Forall2_map_r {A B : Type} (P : A -> B -> Prop) (f : A -> B) (l : list A) :
  (forall a, In a l -> P a (f a)) -> Forall2 P l (map f l).
Proof.
  induction l as [|a t IH]; simpl; intros H; constructor.
  - apply H. now left.
  - apply IH. intros b Hb. apply H. now right.
Qed.

Lemma to_numeric_text_class {py : PyText} (r : string) :
  string_forallb in_class r = true ->
  to_numeric_text r = match float_of_run r with Some x => x | None => NaN end.
Proof. unfold to_numeric_text. now intros ->. Qed.

Lemma clean_mrp_eq {py : PyText} (products : DataFrame) (mrp : Series) :
  getitem products "MRP" = Ok mrp ->
  clean_mrp products =
  Ok (setitem
        (setitem products "MRP_clean"
           (ObjectS (map (fun t => str_extract (str_replace_comma t)) (astype_str mrp))))
        "MRP_clean" (Float64S (map mrp_clean_text (astype_str mrp)))).
Proof.
  intros H. unfold clean_mrp. rewrite H. cbn [bind].
  rewrite getitem_setitem_same. cbn [bind to_numeric_coerce].
  rewrite map_map. reflexivity.
Qed.

Lemma clean_mrp_column {py : PyText} (products : DataFrame) (mrp : Series) :
  getitem products "MRP" = Ok mrp ->
  (p <- clean_mrp products ;; getitem p "MRP_clean") =
  Ok (Float64S (map mrp_clean_text (astype_str mrp))).
Proof.
  intros H. rewrite (clean_mrp_eq _ _ H). cbn [bind].
  apply getitem_setitem_same.
Qed.

Lemma str_replace_comma_class (s : string) :
  string_forallb in_class s = true -> str_replace_comma s = s.
Proof.
  unfold str_replace_comma. induction s as [|c t IH]; simpl; [reflexivity|].
  intros H. apply andb_prop in H as [Hc Ht].
  destruct (is_comma c) eqn:E.
  - unfold is_comma in E. apply Ascii.eqb_eq in E. subst. discriminate.
  - simpl. now rewrite IH.
Qed.

Lemma str_extract_class (s : string) :
  string_forallb in_class s = true -> s <> EmptyString -> str_extract s = Some s.
Proof.
  destruct s as [|c t]; [contradiction|]. simpl. intros H _.
  apply andb_prop in H as [Hc Ht]. now rewrite Hc, take_class_all.
Qed.

Lemma mrp_clean_text_number {py : PyText} (s : string) (x : float) :
  float_of_run s = Some x -> mrp_clean_text s = x.
Proof.
  intros H. destruct (float_of_run_class _ _ H) as [Hc Hne].
  unfold mrp_clean_text.
  rewrite (str_replace_comma_class _ Hc), (str_extract_class _ Hc Hne).
  now rewrite (to_numeric_text_class _ Hc), H.
Qed.

Lemma mrp_clean_text_spec {py : PyText} (t : string) :
  mrp_clean_spec t (mrp_clean_text t).
Proof.
  unfold mrp_clean_spec, mrp_clean_text.
  destruct (str_extract (str_replace_comma t)) as [r|] eqn:E.
  - right. exists r. split; [now apply str_extract_first_run|].
    rewrite (to_numeric_text_class _ (str_extract_forallb _ _ E)).
    now destruct (float_of_run r).
  - left. split; [now apply str_extract_none | reflexivity].
Qed.

Lemma clean_discount_eq {py : PyText} (products : DataFrame) (d : Series) :
  getitem products "Discount" = Ok d ->
  clean_discount products =
  (l <- mapM float_of_match (map str_extract (astype_str d)) ;;
   Ok (setitem products "Discount_pct" (Float64S l))).
Proof.
  intros H. unfold clean_discount, astype_float. rewrite H. cbn [bind].
  now destruct (mapM float_of_match (map str_extract (astype_str d))).
Qed.

Lemma mapM_Ok_nth {A B : Type} (f : A -> result B) (l : list A) (m : list B) :
  mapM f l = Ok m ->
  forall i a, nth_error l i = Some a ->
  exists b, nth_error m i = Some b /\ f a = Ok b.
Proof.
  revert m. induction l as [|x t IH]; intros m H i a Hi.
  - destruct i; discriminate.
  - simpl in H. destruct (f x) as [b|] eqn:Ex; [|discriminate]. cbn [bind] in H.
    destruct (mapM f t) as [bs|] eqn:Et; [|discriminate]. cbn [bind] in H.
    injection H as <-. destruct i as [|i]; simpl in *.
    + injection Hi as <-. now exists b.
    + now apply IH.
Qed.

Lemma mapM_Raise {A B : Type} (f : A -> result B) (l : list A) (e : exn) :
  (forall a, In a l -> f a = Raise e \/ exists b, f a = Ok b) ->
  (exists a, In a l /\ f a = Raise e) ->
  mapM f l = Raise e.
Proof.
  induction l as [|x t IH]; intros Hall (a & Ha & Hf); [contradiction|].
  simpl. destruct (Hall x (or_introl eq_refl)) as [E | (b & E)]; rewrite E; cbn [bind].
  - reflexivity.
  - rewrite IH; [reflexivity | | ].
    + intros y Hy. apply Hall. now right.
    + destruct Ha as [-> | Ha]; [congruence | now exists a].
Qed.

Lemma string_filter_app (p : ascii -> bool) (a b : string) :
  string_filter p (a ++ b) = string_filter p a ++ string_filter p b.
Proof.
  induction a as [|c t IH]; simpl; [reflexivity|].
  destruct (p c); simpl; now rewrite IH.
Qed.

Lemma str_extract_comma (a b : string) :
  a <> EmptyString -> string_forallb in_class a = true ->
  str_extract (a ++ String "," b) = Some a.
Proof.
  destruct a as [|c t]; [contradiction|]. intros _ H. simpl in *.
  apply andb_prop in H as [Hc Ht]. rewrite Hc. f_equal. f_equal.
  now apply take_class_app.
Qed.

Lemma str_extract_skip (pre s : string) :
  no_run pre -> str_extract (pre ++ s) = str_extract s.
Proof.
  unfold no_run. induction pre as [|c t IH]; simpl; [reflexivity|].
  intros H. apply andb_prop in H as [Hc Ht].
  apply negb_true_iff in Hc. rewrite Hc. now apply IH.
Qed.

Lemma take_class_app_class (a s : string) :
  string_forallb in_class a = true -> take_class (a ++ s) = a ++ take_class s.
Proof.
  induction a as [|c t IH]; simpl; [reflexivity|].
  intros H. apply andb_prop in H as [Hc Ht]. rewrite Hc. f_equal. now apply IH.
Qed.

Lemma str_extract_run (a s : string) :
  a <> EmptyString -> string_forallb in_class a = true ->
  str_extract (a ++ s) = Some (a ++ take_class s).
Proof.
  destruct a as [|c t]; [contradiction|]. intros _ H. simpl in *.
  apply andb_prop in H as [Hc Ht]. rewrite Hc. f_equal. f_equal.
  now apply take_class_app_class.
Qed.

Lemma str_replace_comma_app (a b : string) :
  str_replace_comma (a ++ b) = str_replace_comma a ++ str_replace_comma b.
Proof. apply string_filter_app. Qed.

Lemma str_replace_comma_no_run (pre : string) :
  no_run pre -> no_run (str_replace_comma pre).
Proof.
  unfold no_run, str_replace_comma. induction pre as [|c t IH]; simpl; [reflexivity|].
  intros H. apply andb_prop in H as [Hc Ht].
  destruct (is_comma c); simpl; [now apply IH|]. now rewrite Hc, IH.
Qed.

Lemma str_replace_comma_digits (u : string) :
  string_forallb class_or_comma u = true ->
  string_forallb in_class (str_replace_comma u) = true.
Proof.
  unfold str_replace_comma. induction u as [|c t IH]; simpl; [reflexivity|].
  intros H. apply andb_prop in H as [Hc Ht]. unfold class_or_comma in Hc.
  destruct (is_comma c); simpl; [now apply IH|].
  rewrite orb_false_r in Hc. now rewrite Hc, IH.
Qed.

Lemma take_class_ends_number (post : string) :
  ends_number post -> take_class (str_replace_comma post) = EmptyString.
Proof.
  intros [-> | (c & t & -> & Hc)]; [reflexivity|].
  unfold class_or_comma in Hc. apply orb_false_iff in Hc as [Hc Hm].
  unfold str_replace_comma. simpl. rewrite Hm. simpl. now rewrite Hc.
Qed.

(** The run that step 3.1 reads from a price written with separators: the
    digits and points of the number with its commas dropped. *)
Lemma mrp_run_with_commas (pre a u post : string) :
  no_run pre -> a <> EmptyString -> string_forallb in_class a = true ->
  string_forallb class_or_comma u = true -> ends_number post ->
  str_extract (str_replace_comma (pre ++ a ++ String "," (u ++ post)))
  = Some (a ++ str_replace_comma u).
Proof.
  intros Hpre Hne Ha Hu Hpost.
  rewrite str_replace_comma_app, str_extract_skip by now apply str_replace_comma_no_run.
  rewrite str_replace_comma_app, (str_replace_comma_class a Ha).
  change (String "," (u ++ post)) with (String "," EmptyString ++ (u ++ post)).
  rewrite str_replace_comma_app. change (str_replace_comma ",") with EmptyString.
  cbn [append]. rewrite str_replace_comma_app.
  rewrite str_extract_run by assumption. f_equal. f_equal.
  rewrite take_class_app_class by now apply str_replace_comma_digits.
  rewrite take_class_ends_number by assumption. apply append_empty_r.
Qed.

Lemma with_separators_cons (a g : string) (gs : list string) :
  with_separators (a :: g :: gs) = a ++ String "," (with_separators (g :: gs)).
Proof. reflexivity. Qed.

Lemma without_separators_cons (a g : string) (gs : list string) :
  without_separators (a :: g :: gs) = a ++ without_separators (g :: gs).
Proof. reflexivity. Qed.

Lemma with_separators_chars (groups : list string) :
  digit_groups groups ->
  string_forallb class_or_comma (with_separators groups) = true.
Proof.
  assert (Hc : forall g, string_forallb in_class g = true ->
                         string_forallb class_or_comma g = true).
  { intros g. apply string_forallb_impl. intros c Hc. unfold class_or_comma.
    now rewrite Hc. }
  induction 1 as [|a gs Ha _ IH]; [reflexivity|].
  destruct gs as [|g gs]; [now apply Hc|].
  rewrite with_separators_cons, string_forallb_app, (Hc _ Ha). exact IH.
Qed.

Lemma str_replace_comma_groups (groups : list string) :
  digit_groups groups ->
  str_replace_comma (with_separators groups) = without_separators groups.
Proof.
  induction 1 as [|a gs Ha _ IH]; [reflexivity|].
  destruct gs as [|g gs]; [now apply str_replace_comma_class|].
  rewrite with_separators_cons, without_separators_cons, str_replace_comma_app.
  rewrite (str_replace_comma_class a Ha). f_equal.
  change (String "," (with_separators (g :: gs)))
    with (String "," EmptyString ++ with_separators (g :: gs)).
  rewrite str_replace_comma_app. exact IH.
Qed.

(** The run that step 3.1 reads from a price written in groups. *)
Lemma mrp_run_of_groups (pre a g post : string) (gs : list string) :
  no_run pre -> a <> EmptyString -> digit_groups (a :: g :: gs) ->
  ends_number post ->
  str_extract (str_replace_comma (pre ++ with_separators (a :: g :: gs) ++ post))
  = Some (without_separators (a :: g :: gs)).
Proof.
  intros Hpre Hne Hg Hpost. inversion Hg as [|? ? Ha Hgs]; subst.
  rewrite with_separators_cons, without_separators_cons.
  rewrite <- (str_replace_comma_groups _ Hgs).
  rewrite append_assoc. cbn [append].
  apply mrp_run_with_commas; auto. now apply with_separators_chars.
Qed.

(** The run that step 3.3 reads ends at the first comma of the number. *)
Lemma discount_run_ends_at_comma (pre a rest : string) :
  no_run pre -> a <> EmptyString -> string_forallb in_class a = true ->
  str_extract (pre ++ a ++ String "," rest) = Some a.
Proof.
  intros Hpre Hne Ha. rewrite str_extract_skip by assumption.
  now apply str_extract_comma.
Qed.

(** C1 (the code departs from the claim).  When the numeric run extracted
    from a Discount cell is not a valid float, step 3.3 raises [ValueError]:
    the cell is not turned into a missing value and the run stops there. *)
Theorem clean_discount_invalid_run_raises {py : PyText}
        (products : DataFrame) (d : Series) (t r : string) :
  getitem products "Discount" = Ok d ->
  In t (astype_str d) ->
  str_extract t = Some r ->
  float_of_run r = None ->
  clean_discount products = Raise ValueError.
Proof.
  intros Hd Ht Hr Hf. rewrite (clean_discount_eq _ _ Hd).
  rewrite (mapM_Raise float_of_match _ ValueError); [reflexivity | |].
  - intros [s|] _; simpl; [|right; now exists NaN].
    destruct (float_of_run s) as [x|]; [right; now exists x | now left].
  - exists (Some r). split.
    + rewrite <- Hr. now apply in_map.
    + simpl. now rewrite Hf.
Qed.

Lemma clean_discount_invalid_run_raises_witness :
  getitem (one_product (ObjectS [Some "500"]) (ObjectS [Some "1.2.3"])) "Discount"
  = Ok (ObjectS [Some "1.2.3"]) /\
  In "1.2.3" (astype_str (py := plain_text) (ObjectS [Some "1.2.3"])) /\
  str_extract "1.2.3" = Some "1.2.3" /\
  float_of_run "1.2.3" = None /\
  clean_discount (py := plain_text)
    (one_product (ObjectS [Some "500"]) (ObjectS [Some "1.2.3"]))
  = Raise ValueError.
Proof.
  refine (conj eq_refl (conj (or_introl eq_refl) (conj eq_refl (conj eq_refl _)))).
  apply (clean_discount_invalid_run_raises (py := plain_text)
           (one_product (ObjectS [Some "500"]) (ObjectS [Some "1.2.3"]))
           (ObjectS [Some "1.2.3"]) "1.2.3" "1.2.3").
  - reflexivity.
  - left. reflexivity.
  - reflexivity.
  - reflexivity.
Defined.

(** The run stops there, a lone point does the same, and on the same text
    step 3.1 gives a missing value. *)
Example invalid_discount_stops_the_run :
  run (py := plain_text)
    (one_product (ObjectS [Some "500"]) (ObjectS [Some "1.2.3"]))
  = Raise ValueError /\
  clean_discount (py := plain_text)
    (one_product (ObjectS [Some "500"]) (ObjectS [Some "."]))
  = Raise ValueError /\
  (p <- clean_mrp (py := plain_text)
          (one_product (ObjectS [Some "1.2.3"]) (ObjectS [Some "5"])) ;;
   getitem p "MRP_clean")
  = Ok (Float64S [NaN]).
Proof. repeat split. Qed.

(** C2 (the code departs from the claim).  The cleaning stage never
    completes: whatever the input, section 3 raises, and so does the run.
    When steps 3.1 to 3.3 succeed and the table has a Currancy column, the
    exception is the [AttributeError] of the currency step 3.4; so it is on
    the scenario, which has all the required columns. *)
Theorem clean_always_raises {py : PyText} (data_raw : DataFrame) :
  (exists e, clean data_raw = Raise e) /\
  (exists e, run data_raw = Raise e) /\
  (forall products c,
      clean_numeric data_raw = Ok products ->
      getitem products "Currancy" = Ok c ->
      clean data_raw = Raise AttributeError /\
      run data_raw = Raise AttributeError) /\
  clean scenario = Raise AttributeError /\
  run scenario = Raise AttributeError.
Proof.
  assert (H : exists e, clean data_raw = Raise e).
  { unfold clean. destruct (clean_numeric data_raw) as [p|e]; cbn [bind].
    - unfold clean_currency. destruct (getitem p "Currancy"); cbn [bind]; eauto.
    - eauto. }
  split; [exact H|]. split; [|split; [|split; reflexivity]].
  - destruct H as [e He]. exists e. unfold run. now rewrite He.
  - intros products c Hc Hg.
    assert (E : clean data_raw = Raise AttributeError).
    { unfold clean. rewrite Hc. cbn [bind]. unfold clean_currency.
      now rewrite Hg. }
    split; [exact E|]. unfold run. now rewrite E.
Qed.

(** C4 (counterexample).  An already-numeric MRP does not always pass
    through unchanged: the integer -5 is cleaned to 5.0, the sign being
    outside the extracted run. *)
Lemma mrp_clean_drops_sign :
  getitem numeric_mrp "MRP" = Ok (Int64S [-5]) /\
  (p <- clean_mrp (py := plain_text) numeric_mrp ;; getitem p "MRP_clean")
  = Ok (Float64S [float_of_Z 5]) /\
  float_of_Z 5 <> float_of_Z (-5).
Proof.
  split; [reflexivity|]. split; [reflexivity|].
  intros H. discriminate H.
Qed.

(** C4 (amended).  For every raw MRP value, [MRP_clean] is what the spec
    describes: the value is turned into text, the commas are removed, the first
    maximal run of digits and decimal points is read as a float, and the
    result is missing when there is no such run or the run is not a number.
    "3,900" gives 3900.0, "20% off" gives 20.0 and "N/A" gives a missing
    value.  Numeric input passes through unchanged when it is a non-negative
    integer, a missing float, or a float whose text is an unsigned decimal
    that reads back to it. *)
Theorem mrp_clean_first_run {py : PyText} (products : DataFrame) (mrp : Series) :
  getitem products "MRP" = Ok mrp ->
  exists m,
    (p <- clean_mrp products ;; getitem p "MRP_clean") = Ok (Float64S m) /\
    Forall2 mrp_clean_spec (astype_str mrp) m /\
    (forall l, mrp = Int64S l ->
               Forall2 (fun z x => 0 <= z -> x = float_of_Z z) l m) /\
    (forall l, mrp = Float64S l ->
               Forall2 (fun y x =>
                          y = NaN \/ float_of_run (str_of_float y) = Some y ->
                          x = y) l m) /\
    (p <- clean_mrp price_examples ;; getitem p "MRP_clean")
    = Ok (Float64S [float_of_Z 3900; float_of_Z 20; NaN]).
Proof.
  intros H. exists (map mrp_clean_text (astype_str mrp)).
  split; [now apply clean_mrp_column|].
  split; [apply Forall2_map_r; intros; apply mrp_clean_text_spec|].
  split; [|split; [|reflexivity]].
  - intros l ->. simpl. rewrite map_map. apply Forall2_map_r.
    intros z _ Hz. now apply mrp_clean_text_number, float_of_run_str_of_int.
  - intros l ->. simpl. rewrite map_map. apply Forall2_map_r.
    intros y _ [-> | Hy]; [reflexivity | now apply mrp_clean_text_number].
Qed.

Lemma mrp_clean_first_run_witness :
  getitem scenario "MRP" = Ok (ObjectS [Some "1,000"; Some "500"; Some "abc"]) /\
  exists m,
    (p <- clean_mrp (py := plain_text) scenario ;; getitem p "MRP_clean")
    = Ok (Float64S m) /\
    Forall2 mrp_clean_spec
      (astype_str (py := plain_text) (ObjectS [Some "1,000"; Some "500"; Some "abc"])) m.
Proof.
  split; [reflexivity|].
  destruct (mrp_clean_first_run (py := plain_text) scenario
              (ObjectS [Some "1,000"; Some "500"; Some "abc"]) eq_refl)
    as (m & Hm & Hspec & _).
  exists m. split; [exact Hm | exact Hspec].
Defined.

(** Numeric input that passes through: a non-negative integer column and a
    float column in plain notation. *)
Example mrp_clean_numeric_passes :
  (p <- clean_mrp (py := plain_text)
          (one_product (Int64S [3900]) (ObjectS [Some "5%"])) ;;
   getitem p "MRP_clean")
  = Ok (Float64S [float_of_Z 3900]) /\
  (p <- clean_mrp (py := plain_text)
          (one_product (Float64S [Fin (Q2Qc (7801 # 2))]) (ObjectS [Some "5%"])) ;;
   getitem p "MRP_clean")
  = Ok (Float64S [Fin (Q2Qc (39005 # 10))]) /\
  (p <- clean_mrp (py := plain_text)
          (one_product (Float64S [NaN]) (ObjectS [Some "5%"])) ;;
   getitem p "MRP_clean")
  = Ok (Float64S [NaN]).
Proof. repeat split. Qed.

(** C10.  Commas are removed for MRP only.  Step 3.1 reads from the text of
    a price the first run of digits and points of the text without its
    commas, step 3.3 reads from the text of a discount the first run of the
    text as it stands.  So in every discount text whose first number [a] is
    followed by a comma, whatever comes before the number and after the
    comma, the run ends at the comma and [Discount_pct] is the number [a];
    a price written in groups with commas between them, with any text
    around it, is read as the number of all its groups put together. *)
Theorem comma_ends_discount_run_only {py : PyText}
        (products : DataFrame) (mrp d : Series) (i : nat) (tm td : string) :
  getitem products "MRP" = Ok mrp ->
  getitem products "Discount" = Ok d ->
  nth_error (astype_str mrp) i = Some tm ->
  nth_error (astype_str d) i = Some td ->
  (exists m x,
     (p <- clean_mrp products ;; getitem p "MRP_clean") = Ok (Float64S m) /\
     nth_error m i = Some x /\
     mrp_clean_spec tm x /\
     forall pre a g gs post,
       tm = pre ++ with_separators (a :: g :: gs) ++ post ->
       no_run pre -> a <> EmptyString -> digit_groups (a :: g :: gs) ->
       ends_number post ->
       x = match float_of_run (without_separators (a :: g :: gs)) with
           | Some y => y
           | None => NaN
           end) /\
  (forall p, clean_discount products = Ok p ->
     exists l x,
       getitem p "Discount_pct" = Ok (Float64S l) /\
       nth_error l i = Some x /\
       discount_pct_spec td x /\
       forall pre a rest,
         td = pre ++ a ++ String "," rest ->
         no_run pre -> a <> EmptyString -> string_forallb in_class a = true ->
         float_of_run a = Some x).
Proof.
  intros Hm Hd Hmi Hdi. split.
  - exists (map mrp_clean_text (astype_str mrp)), (mrp_clean_text tm).
    split; [exact (clean_mrp_column _ _ Hm)|].
    split; [exact (map_nth_error _ _ _ Hmi)|].
    split; [apply mrp_clean_text_spec|].
    intros pre a g gs post -> Hpre Hne Hg Hpost. unfold mrp_clean_text.
    rewrite (mrp_run_of_groups _ _ _ _ _ Hpre Hne Hg Hpost).
    apply to_numeric_text_class.
    rewrite <- (str_replace_comma_groups _ Hg).
    apply str_replace_comma_digits. now apply with_separators_chars.
  - intros p Hp. rewrite (clean_discount_eq _ _ Hd) in Hp.
    destruct (mapM float_of_match (map str_extract (astype_str d)))
      as [l|] eqn:El; [|discriminate].
    cbn [bind] in Hp. injection Hp as <-.
    destruct (mapM_Ok_nth _ _ _ El i (str_extract td)) as (x & Hx & Hf).
    { exact (map_nth_error _ _ _ Hdi). }
    exists l, x. split; [apply getitem_setitem_same|]. split; [exact Hx|]. split.
    + unfold discount_pct_spec. destruct (str_extract td) as [r|] eqn:Er.
      * right. exists r. split; [now apply str_extract_first_run|].
        simpl in Hf. destruct (float_of_run r); [congruence | discriminate].
      * left. split; [now apply str_extract_none|]. simpl in Hf. congruence.
    + intros pre a rest -> Hpre Hne Ha.
      rewrite (discount_run_ends_at_comma _ _ _ Hpre Hne Ha) in Hf.
      simpl in Hf. destruct (float_of_run a); [congruence | discriminate].
Qed.

Lemma comma_ends_discount_run_only_witness :
  (p <- clean_mrp (py := plain_text) comma_examples ;; getitem p "MRP_clean")
  = Ok (Float64S [float_of_Z 1500; float_of_Z 1500; float_of_Z 1500;
                  float_of_Z 1500000]) /\
  (p <- clean_discount (py := plain_text) comma_examples ;; getitem p "Discount_pct")
  = Ok (Float64S [float_of_Z 1; float_of_Z 1; float_of_Z 1; float_of_Z 1]) /\
  (exists m x,
     (p <- clean_mrp (py := plain_text) comma_examples ;; getitem p "MRP_clean")
     = Ok (Float64S m) /\
     nth_error m 3 = Some x /\
     mrp_clean_spec "1,500,000" x /\
     x = float_of_Z 1500000) /\
  (exists p l x,
     clean_discount (py := plain_text) comma_examples = Ok p /\
     getitem p "Discount_pct" = Ok (Float64S l) /\
     nth_error l 3 = Some x /\
     discount_pct_spec "1,500,000" x /\
     float_of_run "1" = Some x).
Proof.
  split; [reflexivity|]. split; [reflexivity|].
  destruct (comma_ends_discount_run_only (py := plain_text) comma_examples
              _ _ 3 "1,500,000" "1,500,000" eq_refl eq_refl eq_refl eq_refl)
    as [(m & x & Hc & Hx & Hs & Hshape) Hd].
  split.
  - exists m, x. repeat split; try assumption.
    apply (Hshape "" "1" "500" ["000"] "");
      [reflexivity | reflexivity | discriminate | repeat constructor
      | left; reflexivity].
  - destruct (clean_discount (py := plain_text) comma_examples) as [p|] eqn:Ep;
      [|discriminate Ep].
    destruct (Hd p eq_refl) as (l & y & Hl & Hy & Hsy & Hshape').
    exists p, l, y. repeat split; try assumption.
    apply (Hshape' "" "1" "500,000"); [reflexivity | reflexivity | discriminate
                                       | reflexivity].
Defined.

(** ** Feature engineering *)

Ltac getitems :=
  repeat first
    [ rewrite getitem_setitem_same
    | rewrite getitem_setitem_other by discriminate ].

Lemma dropna_idem (l : list float) : dropna (dropna l) = dropna l.
Proof.
  unfold dropna. induction l as [|x t IH]; simpl; [reflexivity|].
  destruct (isnan x) eqn:E; simpl; [exact IH | now rewrite E, IH].
Qed.

Lemma quantile_dropna (l : list float) (q : Qc) :
  quantile (dropna l) q = quantile l q.
Proof. unfold quantile. now rewrite dropna_idem. Qed.

Lemma feature_engineering_eq (products : DataFrame) (mrp sp : Series)
      (m s : list float) :
  getitem products "MRP_clean" = Ok mrp -> as_floats mrp = Ok m ->
  getitem products "SellPrice" = Ok sp -> as_floats sp = Ok s ->
  let dv := map (fun p => fsub (fst p) (snd p)) (combine m s) in
  let ratio := map (fun p => fdiv (fst p) (snd p)) (combine dv m) in
  let cutoff := quantile m (Q2Qc (3 # 4)) in
  feature_engineering products =
  Ok (setitem
        (setitem
           (setitem
              (setitem
                 (setitem products "Discount_value" (Float64S dv))
                 "Discount_ratio" (Float64S ratio))
              "Discount_ratio" (Float64S (mask_nonfinite ratio)))
           "Revenue" sp)
        "Is_premium" (Int64S (map (fun x => b2z (fge x cutoff)) m))).
Proof.
  intros Hmrp Hm Hsp Hs dv ratio cutoff. unfold feature_engineering.
  rewrite Hmrp, Hsp. cbn [bind]. unfold series_binop at 1.
  rewrite Hm, Hs. cbn [bind]. fold dv. getitems. rewrite Hmrp. cbn [bind].
  unfold series_binop. cbn [as_floats bind]. rewrite Hm. cbn [bind]. fold ratio.
  getitems. cbn [bind as_floats]. getitems. rewrite Hsp. cbn [bind].
  getitems. rewrite Hmrp. cbn [bind]. rewrite Hm. cbn [bind]. reflexivity.
Qed.

Lemma mask_nonfinite_ratio (m s : list float) :
  mask_nonfinite
    (map (fun p => fdiv (fst p) (snd p))
         (combine (map (fun p => fsub (fst p) (snd p)) (combine m s)) m))
  = map (fun p => discount_ratio_spec (fst p) (snd p)) (combine m s).
Proof.
  unfold mask_nonfinite. rewrite map_map.
  revert s. induction m as [|x m IH]; intros [|y s]; try reflexivity.
  simpl. rewrite IH. f_equal. unfold discount_ratio_spec.
  now destruct (isfinite (fdiv (fsub x y) x)).
Qed.

Lemma insert_by_Permutation {A : Type} (le : A -> A -> bool) (x : A) (l : list A) :
  Permutation (insert_by le x l) (x :: l).
Proof.
  induction l as [|y t IH]; simpl; [reflexivity|].
  destruct (le x y); [reflexivity|].
  rewrite IH. apply perm_swap.
Qed.

Lemma sort_by_Permutation {A : Type} (le : A -> A -> bool) (l : list A) :
  Permutation (sort_by le l) l.
Proof.
  induction l as [|x t IH]; simpl; [reflexivity|].
  rewrite insert_by_Permutation. now constructor.
Qed.

Lemma fle_total (x y : float) :
  isnan x = false -> isnan y = false -> fle x y = false -> fle y x = true.
Proof.
  unfold fle. destruct x as [a| | |], y as [b| | |]; simpl;
    try discriminate; try reflexivity.
  intros _ _. unfold Qccompare. rewrite <- (Qcompare_antisym a b).
  destruct (Qcompare a b); simpl; auto; discriminate.
Qed.

Lemma insert_by_fle_Sorted (x : float) (l : list float) :
  isnan x = false -> Forall (fun y => isnan y = false) l ->
  Sorted (fun a b => fle a b = true) l ->
  Sorted (fun a b => fle a b = true) (insert_by fle x l).
Proof.
  intros Hx Hl Hs. induction l as [|y t IH]; simpl.
  - repeat constructor.
  - destruct (fle x y) eqn:E.
    + constructor; [exact Hs | now constructor].
    + inversion Hl as [|? ? Hy Ht]; subst. inversion Hs as [|? ? Hst Hhd]; subst.
      constructor; [now apply IH|].
      destruct t as [|z t]; simpl.
      * constructor. now apply fle_total.
      * destruct (fle x z); constructor.
        -- now apply fle_total.
        -- now inversion Hhd.
Qed.

Lemma sort_by_fle_Sorted (l : list float) :
  Forall (fun y => isnan y = false) l ->
  Sorted (fun a b => fle a b = true) (sort_by fle l).
Proof.
  induction 1 as [|x t Hx Ht IH]; simpl; [constructor|].
  apply insert_by_fle_Sorted; auto.
  apply (Permutation_Forall (Permutation_sym (sort_by_Permutation fle t))).
  exact Ht.
Qed.

Lemma dropna_not_nan (l : list float) : Forall (fun y => isnan y = false) (dropna l).
Proof.
  apply Forall_forall. intros x Hx. apply filter_In in Hx as [_ Hx].
  now apply negb_true_iff.
Qed.

(** The values that [quantile] interpolates between are the non-missing
    values in ascending order. *)
Lemma quantile_sorted_values (l : list float) :
  Permutation (sort_by fle (dropna l)) (dropna l) /\
  Sorted (fun a b => fle a b = true) (sort_by fle (dropna l)).
Proof.
  split; [apply sort_by_Permutation | apply sort_by_fle_Sorted, dropna_not_nan].
Qed.

(** On finite neighbours numpy's two-sided formula is the linear
    interpolation [a + (b - a) * t], which is also the weighted mean
    [(1 - t) * a + t * b]. *)
Lemma lerp_finite (a b t : Qc) :
  lerp (Fin a) (Fin b) t = Fin (a + (b - a) * t)%Qc /\
  lerp (Fin a) (Fin b) t = Fin ((Q2Qc 1 - t) * a + t * b)%Qc.
Proof.
  unfold lerp. destruct (Qccompare t (Q2Qc (1 # 2))); simpl; split; f_equal; ring.
Qed.

Lemma Qfloor_fraction (k : Z) (q : Q) :
  0 <= k -> (0 <= q)%Q -> (q <= 1)%Q ->
  0 <= Qfloor (inject_Z k * q) <= k /\
  (0 <= inject_Z k * q - inject_Z (Qfloor (inject_Z k * q)))%Q /\
  (inject_Z k * q - inject_Z (Qfloor (inject_Z k * q)) <= 1)%Q.
Proof.
  intros Hk H0 H1. set (v := (inject_Z k * q)%Q).
  assert (Hk' : (0 <= inject_Z k)%Q).
  { change 0%Q with (inject_Z 0). now rewrite <- Zle_Qle. }
  assert (Hv0 : (0 <= v)%Q) by now apply Qmult_le_0_compat.
  assert (Hv1 : (v <= inject_Z k)%Q).
  { unfold v. rewrite <- (Qmult_1_r (inject_Z k)) at 2.
    rewrite !(Qmult_comm (inject_Z k)). now apply Qmult_le_compat_r. }
  pose proof (Qfloor_le v) as Hf. pose proof (Qlt_floor v) as Hl.
  rewrite inject_Z_plus in Hl.
  split; [split|split].
  - rewrite <- (Qfloor_Z 0). now apply Qfloor_resp_le.
  - rewrite <- (Qfloor_Z k). now apply Qfloor_resp_le.
  - lra.
  - change (inject_Z 1) with 1%Q in Hl. lra.
Qed.











(** The values that step 3.1 produces are missing or finite: a run of
    digits and points is read as a finite number (the model has no
    overflow, which in binary64 takes a run of more than 300 digits). *)
Lemma mrp_clean_text_finite {py : PyText} (t : string) :
  isnan (mrp_clean_text t) = true \/ isfinite (mrp_clean_text t) = true.
Proof.
  unfold mrp_clean_text.
  destruct (str_extract (str_replace_comma t)) as [r|] eqn:E; [|now left].
  rewrite (to_numeric_text_class _ (str_extract_forallb _ _ E)).
  unfold float_of_run. destruct (split_dot r) as [ip rest].
  destruct (0 <? _)%nat; [|now left].
  destruct (Z_of_digits _); [now right | now left].
Qed.

Lemma clean_mrp_missing_or_finite {py : PyText} (products : DataFrame) (mrp : Series) :
  getitem products "MRP" = Ok mrp ->
  exists m,
    (p <- clean_mrp products ;; getitem p "MRP_clean") = Ok (Float64S m) /\
    Forall (fun x => isnan x = true \/ isfinite x = true) m.
Proof.
  intros H. eexists. split; [exact (clean_mrp_column _ _ H)|].
  apply Forall_forall. intros x Hx. apply in_map_iff in Hx as (t & <- & _).
  apply mrp_clean_text_finite.
Qed.


(** C6.  Every value of [Discount_ratio] is missing or a finite float: the
    quotient [Discount_value / MRP_clean] is kept when it is finite and
    replaced by a missing value otherwise, as for [MRP_clean = 0] with a
    non-zero [Discount_value], where the quotient is an infinity. *)
Theorem discount_ratio_finite_or_missing
        (products : DataFrame) (mrp sp : Series) (m s : list float) :
  getitem products "MRP_clean" = Ok mrp -> as_floats mrp = Ok m ->
  getitem products "SellPrice" = Ok sp -> as_floats sp = Ok s ->
  exists p r,
    feature_engineering products = Ok p /\
    getitem p "Discount_ratio" = Ok (Float64S r) /\
    r = map (fun x => discount_ratio_spec (fst x) (snd x)) (combine m s) /\
    Forall (fun x => isnan x = true \/ isfinite x = true) r /\
    fdiv (fsub (float_of_Z 0) (float_of_Z 800)) (float_of_Z 0) = NInf /\
    discount_ratio_spec (float_of_Z 0) (float_of_Z 800) = NaN.
Proof.
  intros Hmrp Hm Hsp Hs.
  eexists. eexists. split; [exact (feature_engineering_eq _ _ _ _ _ Hmrp Hm Hsp Hs)|].
  split; [now getitems|].
  split; [apply mask_nonfinite_ratio|].
  split; [|split; reflexivity].
  rewrite mask_nonfinite_ratio. apply Forall_forall. intros x Hx.
  apply in_map_iff in Hx as (y & <- & _). unfold discount_ratio_spec.
  destruct (isfinite (fdiv (fsub (fst y) (snd y)) (fst y))) eqn:E; auto.
Qed.

(** ** Aggregation *)

Lemma cell_eqb_eq (a b : cell) : cell_eqb a b = true <-> a = b.
Proof.
  destruct a, b; simpl; split; intro H; try discriminate;
    try (injection H as H).
  - apply String.eqb_eq in H. now subst.
  - subst. apply String.eqb_refl.
  - apply Z.eqb_eq in H. now subst.
  - subst. apply Z.eqb_refl.
  - apply float_eqb_eq in H. now subst.
  - subst. now apply float_eqb_eq.
Qed.

Lemma cell_eqb_refl (a : cell) : cell_eqb a a = true.
Proof. now apply cell_eqb_eq. Qed.

Lemma unique_In (l : list cell) (c : cell) : In c (unique l) <-> In c l.
Proof.
  induction l as [|x t IH]; simpl; [tauto|].
  rewrite filter_In, IH. split.
  - intros [H | [H _]]; auto.
  - intros [H | H]; [now left|].
    destruct (cell_eqb c x) eqn:E.
    + apply cell_eqb_eq in E. now left.
    + right. now split.
Qed.

Lemma unique_NoDup (l : list cell) : NoDup (unique l).
Proof.
  induction l as [|x t IH]; simpl; constructor.
  - rewrite filter_In. intros [_ H]. now rewrite cell_eqb_refl in H.
  - now apply NoDup_filter.
Qed.

Lemma group_keys_Permutation (keys : list cell) :
  Permutation (group_keys keys) (unique (filter notna keys)).
Proof. apply sort_by_Permutation. Qed.

Lemma group_keys_NoDup (keys : list cell) : NoDup (group_keys keys).
Proof.
  apply (Permutation_NoDup (l := unique (filter notna keys))).
  - symmetry. apply group_keys_Permutation.
  - apply unique_NoDup.
Qed.

Lemma group_keys_In (keys : list cell) (k : cell) :
  In k (group_keys keys) <-> In k keys /\ isna k = false.
Proof.
  rewrite (Permutation_in' eq_refl (group_keys_Permutation keys)).
  rewrite unique_In, filter_In. unfold notna.
  now rewrite negb_true_iff.
Qed.

Lemma category_agg_inv (products : DataFrame) (summary : list CategoryRow) :
  category_agg products = Ok summary ->
  exists cat pid rev r mrp sp pct prem,
    getitem products "Category" = Ok cat /\
    getitem products "Revenue" = Ok rev /\
    as_floats rev = Ok r /\
    summary =
    sort_by (fun a b => desc_le (Total_Revenue a) (Total_Revenue b))
      (map (category_row (cells cat) pid r mrp sp pct prem)
           (group_keys (cells cat))).
Proof.
  unfold category_agg. intros H. repeat bind_inv H.
  injection H as <-. repeat eexists; eauto.
Qed.

Lemma category_agg_keys (products : DataFrame) (summary : list CategoryRow)
      (cat : Series) :
  category_agg products = Ok summary ->
  getitem products "Category" = Ok cat ->
  Permutation (map Category summary) (group_keys (cells cat)).
Proof.
  intros H Hc.
  destruct (category_agg_inv _ _ H)
    as (cat' & pid & rev & r & mrp & sp & pct & prem & Hc' & _ & _ & ->).
  rewrite Hc in Hc'. injection Hc' as <-.
  rewrite sort_by_Permutation, map_map. simpl. now rewrite map_id.
Qed.

(** C3 (amended).  The category summary has exactly one row per distinct
    non-missing Category value of the table; rows whose Category is missing
    belong to no group and get no row of the summary. *)
Theorem category_rows_distinct_present
        (products : DataFrame) (summary : list CategoryRow) (cat : Series) :
  category_agg products = Ok summary ->
  getitem products "Category" = Ok cat ->
  NoDup (map Category summary) /\
  (forall k, In k (map Category summary) <-> In k (cells cat) /\ isna k = false) /\
  ~ In (CFloat NaN) (map Category summary).
Proof.
  intros H Hc. pose proof (category_agg_keys _ _ _ H Hc) as P.
  assert (Hin : forall k, In k (map Category summary) <->
                          In k (cells cat) /\ isna k = false).
  { intros k. rewrite <- group_keys_In. split; apply Permutation_in;
      [exact P | symmetry; exact P]. }
  split; [|split; [exact Hin|]].
  - apply (Permutation_NoDup (l := group_keys (cells cat)));
      [symmetry; exact P | apply group_keys_NoDup].
  - intros Hn. apply Hin in Hn as [_ Hn]. discriminate.
Qed.

Lemma fsum_fold_right (l : list float) :
  fsum l = fold_right fadd (float_of_Z 0) l.
Proof.
  unfold fsum. apply fold_symmetric.
  - intros x y z. apply fadd_assoc.
  - intros y. apply fadd_comm.
Qed.

Lemma fsum_cons (x : float) (l : list float) : fsum (x :: l) = fadd x (fsum l).
Proof. now rewrite !fsum_fold_right. Qed.

Lemma in_combine_fst {A B : Type} (l : list A) (l' : list B) (p : A * B) :
  In p (combine l l') -> In (fst p) l.
Proof. destruct p as [a b]. apply in_combine_l. Qed.

Lemma filter_false {A : Type} (l : list A) : filter (fun _ => false) l = [].
Proof. induction l; simpl; auto. Qed.

Lemma filter_or_Permutation {A : Type} (p1 p2 : A -> bool) (l : list A) :
  (forall x, In x l -> p1 x && p2 x = false) ->
  Permutation (filter p1 l ++ filter p2 l)%list (filter (fun x => p1 x || p2 x) l).
Proof.
  induction l as [|x t IH]; intros Hd; [reflexivity|].
  assert (IH' := IH (fun y Hy => Hd y (or_intror Hy))).
  pose proof (Hd x (or_introl eq_refl)) as Hx. simpl.
  destruct (p1 x), (p2 x); try discriminate; simpl.
  - now constructor.
  - rewrite <- IH'. symmetry. apply Permutation_middle.
  - exact IH'.
Qed.

Lemma filter_groups_Permutation {A : Type} (rows : list (cell * A)) (us : list cell) :
  NoDup us ->
  Permutation (flat_map (fun k => filter (fun p => cell_eqb (fst p) k) rows) us)
              (filter (fun p => existsb (cell_eqb (fst p)) us) rows).
Proof.
  induction 1 as [|k us Hk Hnd IH].
  - simpl. now rewrite filter_false.
  - cbn [flat_map existsb]. rewrite IH. apply filter_or_Permutation. intros p _.
    destruct (cell_eqb (fst p) k) eqn:E; [|reflexivity]. simpl.
    apply cell_eqb_eq in E. subst k.
    destruct (existsb (cell_eqb (fst p)) us) eqn:Ex; [|reflexivity].
    apply existsb_exists in Ex as (y & Hy & Ey).
    apply cell_eqb_eq in Ey. subst y. contradiction.
Qed.

Lemma flat_map_map_snd {A B C : Type} (f : A -> list (B * C)) (l : list A) :
  flat_map (fun a => map snd (f a)) l = map snd (flat_map f l).
Proof.
  induction l as [|a t IH]; simpl; [reflexivity|]. now rewrite map_app, IH.
Qed.

Lemma flat_map_comp {A B C : Type} (f : B -> list C) (g : A -> B) (l : list A) :
  flat_map f (map g l) = flat_map (fun a => f (g a)) l.
Proof.
  induction l as [|a t IH]; simpl; [reflexivity|]. now rewrite IH.
Qed.

Lemma with_key_filter {A : Type} (keys : list cell) (vals : list A) :
  map snd (filter (fun p => notna (fst p)) (combine keys vals)) = with_key keys vals.
Proof.
  revert vals. induction keys as [|k keys IH]; intros [|v vals]; try reflexivity.
  cbn [combine filter fst with_key]. unfold notna.
  destruct (isna k); cbn [negb map snd]; now rewrite IH.
Qed.

(** Every row that has a key is in exactly one group. *)
Lemma groups_partition {A : Type} (keys : list cell) (vals : list A) :
  Permutation (flat_map (fun k => group_of k keys vals) (group_keys keys))
              (with_key keys vals).
Proof.
  rewrite <- with_key_filter.
  rewrite (Permutation_flat_map _ (group_keys_Permutation keys)).
  unfold group_of. rewrite flat_map_map_snd. apply Permutation_map.
  rewrite filter_groups_Permutation by apply unique_NoDup.
  erewrite filter_ext_in; [reflexivity|].
  intros p Hp. apply in_combine_fst in Hp.
  destruct (notna (fst p)) eqn:En.
  - apply existsb_exists. exists (fst p). split; [|apply cell_eqb_refl].
    apply unique_In, filter_In. now split.
  - destruct (existsb (cell_eqb (fst p)) (unique (filter notna keys))) eqn:Ex;
      [|reflexivity].
    apply existsb_exists in Ex as (y & Hy & Ey).
    apply cell_eqb_eq in Ey. subst y.
    apply unique_In, filter_In in Hy as [_ Hy]. congruence.
Qed.

Lemma Zsum_app (a b : list Z) : Zsum (a ++ b) = Zsum a + Zsum b.
Proof. induction a as [|x t IH]; simpl; lia. Qed.

Lemma Zsum_Permutation (l l' : list Z) : Permutation l l' -> Zsum l = Zsum l'.
Proof. induction 1; simpl; lia. Qed.

Lemma Zsum_abs (l : list Z) : Z.abs (Zsum l) <= Zsum (map Z.abs l).
Proof. induction l as [|x t IH]; simpl; lia. Qed.

Lemma present_app (a b : list (option Z)) : present (a ++ b) = (present a ++ present b)%list.
Proof. apply flat_map_app. Qed.

Lemma Zsum_present_flat_map {A : Type} (f : A -> list (option Z)) (l : list A) :
  Zsum (map (fun a => Zsum (present (f a))) l) = Zsum (present (flat_map f l)).
Proof.
  induction l as [|a t IH]; simpl; [reflexivity|].
  now rewrite present_app, Zsum_app, IH.
Qed.

Lemma abs_sum_nonneg (zs : list (option Z)) : 0 <= abs_sum zs.
Proof.
  unfold abs_sum. induction zs as [|[z|] t IH]; simpl in *; lia.
Qed.

Lemma abs_sum_group (k : cell) (keys : list cell) (zs : list (option Z)) :
  abs_sum (group_of k keys zs) <= abs_sum zs.
Proof.
  unfold group_of. revert keys. induction zs as [|o t IH]; intros [|c keys].
  - apply Z.le_refl.
  - apply Z.le_refl.
  - apply abs_sum_nonneg.
  - specialize (IH keys). cbn [combine filter fst].
    destruct (cell_eqb c k); cbn [map snd]; unfold abs_sum in *;
      destruct o as [z|]; simpl in *; lia.
Qed.

Lemma fold_left_fadd_whole (l : list float) (zs : list (option Z)) (a : Z) :
  whole_values l zs ->
  fold_left fadd (dropna l) (float_of_Z a) = float_of_Z (a + Zsum (present zs)).
Proof.
  intros H. revert a. induction H as [|x o l zs Hx _ IH]; intros a.
  - simpl. f_equal. lia.
  - destruct o as [z|]; simpl in Hx; subst x.
    + cbn [dropna filter isnan float_of_Z negb fold_left]. fold (dropna l).
      fold (float_of_Z z). fold (float_of_Z a). rewrite float_of_Z_plus, IH.
      f_equal. simpl. lia.
    + cbn [dropna filter isnan negb]. fold (dropna l). rewrite IH. reflexivity.
Qed.

(** The sum of whole numbers is the whole number they add up to: no
    addition rounds. *)
Lemma nansum_whole (l : list float) (zs : list (option Z)) :
  whole_values l zs -> nansum l = float_of_Z (Zsum (present zs)).
Proof.
  intros H. unfold nansum, fsum. now rewrite (fold_left_fadd_whole _ _ 0 H).
Qed.

Lemma group_of_whole (k : cell) (keys : list cell) (r : list float)
      (zs : list (option Z)) :
  whole_values r zs -> whole_values (group_of k keys r) (group_of k keys zs).
Proof.
  unfold whole_values, group_of. intros H. revert keys.
  induction H as [|x o r zs Hx _ IH]; intros [|c keys]; try constructor.
  cbn [combine filter fst]. destruct (cell_eqb c k); cbn [map snd]; auto.
Qed.

(** The totals of the groups of a key column, when the revenues are whole
    numbers small enough for every sum to be exact. *)
Lemma group_totals_whole (keys : list cell) (r : list float) (zs : list (option Z))
      (bound : Z) :
  whole_values r zs -> abs_sum zs <= bound ->
  let total k := Zsum (present (group_of k keys zs)) in
  (forall k, nansum (group_of k keys r) = float_of_Z (total k) /\
             Z.abs (total k) <= bound) /\
  forall ks, Permutation ks (group_keys keys) ->
    Zsum (map total ks)
    = Zsum (present (with_key keys zs)).
Proof.
  intros Hw Hb total. split.
  - intros k. split; [now apply nansum_whole, group_of_whole|].
    unfold total. pose proof (Zsum_abs (present (group_of k keys zs))).
    pose proof (abs_sum_group k keys zs). unfold abs_sum in *. lia.
  - intros ks P. unfold total.
    rewrite (Zsum_Permutation _ _ (Permutation_map _ P)).
    rewrite Zsum_present_flat_map. apply Zsum_Permutation.
    unfold present. apply Permutation_flat_map. apply groups_partition.
Qed.

(** C7 (amended).  Every row of the category summary holds the skip-missing
    sum of the revenues of its own group, and the groups partition the
    products that have a Category: the revenues of all groups together are
    those of these products, each counted once.  When the revenues are whole
    numbers whose absolute values add up to at most [2 ^ 53], so that no
    addition rounds, every total is the whole number its group adds up to,
    and the totals add up to the sum of the revenues over the products that
    have a Category and a Revenue. *)
Theorem total_revenue_partition
        (products : DataFrame) (summary : list CategoryRow)
        (cat rev : Series) (r : list float) :
  category_agg products = Ok summary ->
  getitem products "Category" = Ok cat ->
  getitem products "Revenue" = Ok rev ->
  as_floats rev = Ok r ->
  Forall (fun row => Total_Revenue row = nansum (group_of (Category row) (cells cat) r))
         summary /\
  Permutation (flat_map (fun row => group_of (Category row) (cells cat) r) summary)
              (with_key (cells cat) r) /\
  forall zs, whole_values r zs -> abs_sum zs <= 2 ^ 53 ->
    exists totals,
      map Total_Revenue summary = map float_of_Z totals /\
      Forall (fun t => Z.abs t <= 2 ^ 53) totals /\
      Zsum totals = Zsum (present (with_key (cells cat) zs)).
Proof.
  intros H Hc Hr Hf.
  pose proof (category_agg_keys _ _ _ H Hc) as P.
  destruct (category_agg_inv _ _ H)
    as (cat' & pid & rev' & r' & mrp & sp & pct & prem & Hc' & Hr' & Hf' & E).
  rewrite Hc in Hc'. injection Hc' as <-.
  rewrite Hr in Hr'. injection Hr' as <-.
  rewrite Hf in Hf'. injection Hf' as <-.
  assert (Hrow : Forall (fun row => Total_Revenue row
                                    = nansum (group_of (Category row) (cells cat) r))
                        summary).
  { rewrite E. apply Forall_forall. intros row Hin.
    apply (Permutation_in _ (sort_by_Permutation _ _)) in Hin.
    apply in_map_iff in Hin as (k & <- & _). reflexivity. }
  split; [exact Hrow|]. split.
  - rewrite <- groups_partition, <- (Permutation_flat_map _ P).
    now rewrite flat_map_comp.
  - intros zs Hw Hb.
    destruct (group_totals_whole (cells cat) r zs (2 ^ 53) Hw Hb) as [Hk Hsum].
    exists (map (fun row => Zsum (present (group_of (Category row) (cells cat) zs)))
                summary).
    split; [|split].
    + rewrite map_map. apply map_ext_in. intros row Hin.
      rewrite Forall_forall in Hrow. rewrite (Hrow _ Hin). apply Hk.
    + apply Forall_forall. intros t Ht. apply in_map_iff in Ht as (row & <- & _).
      apply Hk.
    + rewrite <- (Hsum _ P). now rewrite map_map.
Qed.

(** ** Insights *)

Lemma argmax_from_keeps (v : float) (post : list (cell * float)) (best : cell * float) :
  snd best = v ->
  (forall p, In p post -> fge v (snd p) = true) ->
  argmax_from best post = fst best.
Proof.
  revert best. induction post as [|[k' v'] t IH]; intros best Hb Hp; [reflexivity|].
  pose proof (Hp (k', v') (or_introl eq_refl)) as Hk. cbn [snd] in Hk.
  cbn [argmax_from]. unfold fgt. rewrite Hb, Hk, andb_false_r.
  apply IH; [exact Hb | intros p Hi; apply Hp; now right].
Qed.

Lemma argmax_from_first (k : cell) (v : float) (pre post : list (cell * float))
      (best : cell * float) :
  fgt v (snd best) = true ->
  (forall p, In p pre -> fgt v (snd p) = true) ->
  (forall p, In p post -> fge v (snd p) = true) ->
  argmax_from best (pre ++ (k, v) :: post)%list = k.
Proof.
  revert best. induction pre as [|[k' v'] t IH]; intros best Hb Hpre Hpost.
  - simpl. rewrite Hb. now apply (argmax_from_keeps v).
  - simpl. destruct (fgt v' (snd best)).
    + apply IH; auto.
      * apply (Hpre (k', v')). now left.
      * intros p Hp. apply Hpre. now right.
    + apply IH; auto. intros p Hp. apply Hpre. now right.
Qed.

Lemma idxmax_first_maximum (s pre post : list (cell * float)) (k : cell) (v : float) :
  s = (pre ++ (k, v) :: post)%list ->
  isnan v = false ->
  (forall p, In p pre -> isnan (snd p) = true \/ fgt v (snd p) = true) ->
  (forall p, In p post -> isnan (snd p) = true \/ fge v (snd p) = true) ->
  idxmax s = Ok k.
Proof.
  intros -> Hv Hpre Hpost. unfold idxmax.
  destruct (pre ++ (k, v) :: post)%list as [|hd tl] eqn:Es; [now destruct pre|].
  rewrite <- Es. clear hd tl Es.
  rewrite filter_app. cbn [filter snd]. rewrite Hv. cbn [negb].
  set (f := fun p : cell * float => negb (isnan (snd p))).
  assert (Hpre' : forall p, In p (filter f pre) -> fgt v (snd p) = true).
  { intros p Hp. apply filter_In in Hp as [Hp Hn]. unfold f in Hn.
    destruct (Hpre p Hp) as [E|E]; [now rewrite E in Hn | exact E]. }
  assert (Hpost' : forall p, In p (filter f post) -> fge v (snd p) = true).
  { intros p Hp. apply filter_In in Hp as [Hp Hn]. unfold f in Hn.
    destruct (Hpost p Hp) as [E|E]; [now rewrite E in Hn | exact E]. }
  destruct (filter f pre) as [|b t]; simpl.
  - f_equal. now apply (argmax_from_keeps v).
  - f_equal. apply argmax_from_first; auto.
    + apply Hpre'. now left.
    + intros p Hp. apply Hpre'. now right.
Qed.


(** ** Export *)

Lemma frame_trans (t1 t2 : list string) (a b c : DataFrame) :
  frame t1 a b -> frame t2 b c -> frame (t1 ++ t2) a c.
Proof.
  intros (Hn1 & Hc1 & Hg1 & Hw1) (Hn2 & Hc2 & Hg2 & Hw2). repeat split.
  - congruence.
  - unfold add_names in *. now rewrite fold_left_app, <- Hc1.
  - intros k Hk. rewrite Hg2, Hg1; [reflexivity | |];
      intros Hi; apply Hk, in_or_app; auto.
  - destruct (Hw2 (Hw1 H)) as [Hd _]. exact Hd.
  - destruct (Hw2 (Hw1 H)) as [_ Hs]. exact Hs.
Qed.

Lemma has_name_add_name (k d : string) (names : list string) :
  has_name k (add_name d names) = has_name k names || String.eqb k d.
Proof.
  unfold add_name. destruct (has_name d names) eqn:E.
  - destruct (String.eqb k d) eqn:Ek; [|now rewrite orb_false_r].
    apply String.eqb_eq in Ek. subst. now rewrite E.
  - unfold has_name. rewrite existsb_app. simpl. now rewrite orb_false_r.
Qed.

Lemma add_name_idem (d : string) (names : list string) :
  add_name d (add_name d names) = add_name d names.
Proof.
  unfold add_name at 1. now rewrite has_name_add_name, String.eqb_refl, orb_true_r.
Qed.

Lemma add_name_present (d : string) (names : list string) :
  has_name d names = true -> add_name d names = names.
Proof. unfold add_name. now intros ->. Qed.

Lemma add_names_filter (ds names : list string) :
  NoDup ds ->
  add_names ds names
  = (names ++ filter (fun d => negb (has_name d names)) ds)%list.
Proof.
  intros Hnd. revert names.
  induction Hnd as [|d ds Hd Hnd IH]; intros names; simpl.
  - now rewrite app_nil_r.
  - unfold add_names in *. simpl. rewrite IH. unfold add_name.
    destruct (has_name d names) eqn:E; simpl; [reflexivity|].
    rewrite <- app_assoc. simpl. f_equal. f_equal.
    apply filter_ext_in. intros x Hx. f_equal.
    unfold has_name. rewrite existsb_app. simpl. rewrite orb_false_r.
    destruct (String.eqb x d) eqn:Ex; [|now rewrite orb_false_r].
    apply String.eqb_eq in Ex. subst. contradiction.
Qed.

Lemma astype_str_length {py : PyText} (s : Series) :
  List.length (astype_str s) = size s.
Proof. destruct s; simpl; apply length_map. Qed.

Lemma to_numeric_coerce_size {py : PyText} (s : Series) :
  size (to_numeric_coerce s) = size s.
Proof. destruct s; simpl; try reflexivity. apply length_map. Qed.

Lemma mapM_length {A B : Type} (f : A -> result B) (l : list A) (m : list B) :
  mapM f l = Ok m -> List.length m = List.length l.
Proof.
  revert m. induction l as [|x t IH]; intros m H; simpl in H.
  - now injection H as <-.
  - destruct (f x); [|discriminate]. cbn [bind] in H.
    destruct (mapM f t) as [bs|]; [|discriminate]. cbn [bind] in H.
    injection H as <-. simpl. now rewrite (IH bs).
Qed.

Lemma as_floats_length (s : Series) (m : list float) :
  as_floats s = Ok m -> List.length m = size s.
Proof.
  destruct s; simpl; intros H; try discriminate; injection H as <-;
    [apply length_map | reflexivity].
Qed.

Lemma getitem_has_name (df : DataFrame) (k : string) (s : Series) :
  getitem df k = Ok s -> has_name k (column_names df) = true.
Proof.
  intros H. apply has_name_In. apply getitem_Ok, lookup_In in H.
  unfold column_names. now apply (in_map fst) in H.
Qed.

Lemma clean_mrp_frame {py : PyText} (a b : DataFrame) :
  clean_mrp a = Ok b -> frame ["MRP_clean"] a b.
Proof.
  intros H. destruct (getitem a "MRP") as [mrp|e] eqn:Hm.
  2:{ unfold clean_mrp in H. rewrite Hm in H. discriminate. }
  rewrite (clean_mrp_eq _ _ Hm) in H. injection H as <-. repeat split.
  - rewrite !setitem_names. apply add_name_idem.
  - intros c Hc. rewrite !getitem_setitem_other; [reflexivity | |];
      intros ->; apply Hc; now left.
  - destruct H as [Hd _]. rewrite !setitem_names. now apply add_name_NoDup, add_name_NoDup.
  - pose proof (getitem_size _ _ _ H Hm) as Hs.
    apply setitem_well_formed; [apply setitem_well_formed; [exact H|]|];
      simpl; rewrite length_map; now rewrite astype_str_length.
Qed.

Lemma clean_sellprice_frame {py : PyText} (a b : DataFrame) :
  clean_sellprice a = Ok b ->
  frame ["SellPrice"] a b /\ has_name "SellPrice" (column_names a) = true.
Proof.
  unfold clean_sellprice. intros H.
  destruct (getitem a "SellPrice") as [sp|e] eqn:Hs; [|discriminate].
  cbn [bind] in H. injection H as <-. split; [|exact (getitem_has_name _ _ _ Hs)].
  repeat split.
  - apply setitem_names.
  - intros c Hc. apply getitem_setitem_other. intros ->. apply Hc. now left.
  - destruct H as [Hd _]. rewrite setitem_names. now apply add_name_NoDup.
  - apply setitem_well_formed; [exact H|].
    rewrite to_numeric_coerce_size. exact (getitem_size _ _ _ H Hs).
Qed.

Lemma clean_discount_frame {py : PyText} (a b : DataFrame) :
  clean_discount a = Ok b -> frame ["Discount_pct"] a b.
Proof.
  intros H. destruct (getitem a "Discount") as [d|e] eqn:Hd.
  2:{ unfold clean_discount in H. rewrite Hd in H. discriminate. }
  rewrite (clean_discount_eq _ _ Hd) in H.
  destruct (mapM float_of_match (map str_extract (astype_str d))) as [l|] eqn:El;
    [|discriminate].
  cbn [bind] in H. injection H as <-. repeat split.
  - apply setitem_names.
  - intros c Hc. apply getitem_setitem_other. intros ->. apply Hc. now left.
  - destruct H as [Hn _]. rewrite setitem_names. now apply add_name_NoDup.
  - apply setitem_well_formed; [exact H|]. simpl.
    rewrite (mapM_length _ _ _ El), length_map, astype_str_length.
    exact (getitem_size _ _ _ H Hd).
Qed.

Lemma series_binop_inv (f : float -> float -> float) (a b r : Series) :
  series_binop f a b = Ok r ->
  exists x y, as_floats a = Ok x /\ as_floats b = Ok y.
Proof.
  unfold series_binop. intros H.
  destruct (as_floats a) as [x|]; [|discriminate].
  destruct (as_floats b) as [y|]; [|discriminate]. eauto.
Qed.

Lemma feature_engineering_inv (a b : DataFrame) :
  feature_engineering a = Ok b ->
  exists mrp sp m s,
    getitem a "MRP_clean" = Ok mrp /\ as_floats mrp = Ok m /\
    getitem a "SellPrice" = Ok sp /\ as_floats sp = Ok s.
Proof.
  unfold feature_engineering. intros H.
  destruct (getitem a "MRP_clean") as [mrp|] eqn:Hm; [|discriminate].
  destruct (getitem a "SellPrice") as [sp|] eqn:Hs; [|discriminate].
  cbn [bind] in H.
  destruct (series_binop fsub mrp sp) as [dv|] eqn:Hb; [|discriminate].
  destruct (series_binop_inv _ _ _ _ Hb) as (x & y & Hx & Hy).
  exists mrp, sp, x, y. auto.
Qed.

Lemma feature_engineering_frame (a b : DataFrame) :
  feature_engineering a = Ok b ->
  frame ["Discount_value"; "Discount_ratio"; "Revenue"; "Is_premium"] a b.
Proof.
  intros H.
  destruct (feature_engineering_inv _ _ H) as (mrp & sp & m & s & Hm & Hfm & Hs & Hfs).
  rewrite (feature_engineering_eq _ _ _ _ _ Hm Hfm Hs Hfs) in H.
  injection H as <-. repeat split.
  - rewrite !setitem_names. unfold add_names. simpl. now rewrite add_name_idem.
  - intros c Hc. rewrite !getitem_setitem_other; [reflexivity | | | | |];
      intros ->; apply Hc; simpl; auto.
  - destruct H as [Hd _]. rewrite !setitem_names. now repeat apply add_name_NoDup.
  - pose proof (getitem_size _ _ _ H Hm) as Sm.
    pose proof (getitem_size _ _ _ H Hs) as Ss.
    pose proof (as_floats_length _ _ Hfm) as Lm.
    pose proof (as_floats_length _ _ Hfs) as Ls.
    repeat apply setitem_well_formed; try exact H; simpl;
      unfold mask_nonfinite;
      rewrite ?length_map, ?length_combine, ?length_map, ?length_combine;
      lia.
Qed.

Lemma clean_numeric_frame {py : PyText} (data_raw cleaned : DataFrame) :
  clean_numeric data_raw = Ok cleaned ->
  frame ["MRP_clean"; "SellPrice"; "Discount_pct"] data_raw cleaned /\
  has_name "SellPrice" (column_names data_raw) = true.
Proof.
  unfold clean_numeric. intros H.
  destruct (clean_mrp data_raw) as [p1|] eqn:E1; [|discriminate]. cbn [bind] in H.
  destruct (clean_sellprice p1) as [p2|] eqn:E2; [|discriminate]. cbn [bind] in H.
  apply clean_mrp_frame in E1. apply clean_sellprice_frame in E2 as [E2 Hsp].
  apply clean_discount_frame in H. split.
  - exact (frame_trans _ _ _ _ _ E1 (frame_trans _ _ _ _ _ E2 H)).
  - destruct E1 as (_ & Hc & _). rewrite Hc in Hsp. unfold add_names in Hsp.
    simpl in Hsp. rewrite has_name_add_name in Hsp. simpl in Hsp.
    now rewrite orb_false_r in Hsp.
Qed.

(** C9 (counterexample).  An additional input column is not always passed
    through: one named as a derived column is overwritten. *)
Lemma additional_column_overwritten :
  ~ In "Revenue" required_columns /\
  getitem with_revenue_column "Revenue" = Ok (ObjectS [Some "12 lakh"]) /\
  exists products,
    (cleaned <- clean_numeric (py := plain_text) with_revenue_column ;;
     feature_engineering cleaned) = Ok products /\
    getitem products "Revenue" = Ok (Int64S [800]) /\
    Int64S [800] <> ObjectS [Some "12 lakh"] /\
    header (to_csv products false)
    = ["Product ID"; "Category"; "BrandName"; "MRP"; "SellPrice"; "Discount";
       "Currancy"; "Revenue"; "MRP_clean"; "Discount_pct"; "Discount_value";
       "Discount_ratio"; "Is_premium"].
Proof.
  split; [|split; [reflexivity|]].
  - simpl. intros H. repeat (destruct H as [H|H]; [discriminate H|]). exact H.
  - eexists. split; [reflexivity|]. split; [reflexivity|].
    split; [discriminate | reflexivity].
Qed.

(** C9 (amended).  The table that steps 3.1 to 3.3 and section 4 build, and
    that [to_csv] writes, has the rows of the input; its columns are the
    input's, in their order, followed by those of the six derived columns
    that the input did not already have; every input column that is neither
    required nor named as a derived column is passed through unmodified; the
    file has a header row with exactly these names and one record per row,
    with no column for the row index. *)
Theorem exported_table_frame {py : PyText} (data_raw cleaned products : DataFrame) :
  well_formed data_raw ->
  clean_numeric data_raw = Ok cleaned ->
  feature_engineering cleaned = Ok products ->
  nrows products = nrows data_raw /\
  well_formed products /\
  column_names products
  = (column_names data_raw ++
     filter (fun d => negb (has_name d (column_names data_raw))) derived_columns)%list /\
  (forall c, ~ In c required_columns -> ~ In c derived_columns ->
             getitem products c = getitem data_raw c) /\
  header (to_csv products false) = column_names products /\
  records (to_csv products false)
  = map (row_at (columns products)) (seq 0 (nrows data_raw)) /\
  List.length (records (to_csv products false)) = nrows data_raw /\
  Forall (fun rec => List.length rec = List.length (column_names products))
         (records (to_csv products false)).
Proof.
  intros Hwf Hc Hf.
  apply clean_numeric_frame in Hc as [Hc Hsp].
  apply feature_engineering_frame in Hf.
  destruct (frame_trans _ _ _ _ _ Hc Hf) as (Hn & Hnames & Hget & Hw).
  cbn [app] in *. repeat split.
  - exact Hn.
  - destruct (Hw Hwf) as [H _]. exact H.
  - destruct (Hw Hwf) as [_ H]. exact H.
  - rewrite Hnames, add_names_filter.
    + f_equal. cbn [filter]. rewrite Hsp. reflexivity.
    + repeat constructor; simpl; intuition discriminate.
  - intros c Hr Hd. apply Hget. simpl in *. intuition.
  - simpl. now rewrite Hn.
  - simpl. now rewrite length_map, length_seq.
  - simpl. apply Forall_forall. intros rec Hrec.
    apply in_map_iff in Hrec as (i & <- & _).
    unfold row_at, column_names. now rewrite !length_map.
Qed.

(** ** The properties on concrete tables *)

Example scenario_cleaned_is_reached :
  clean_numeric (py := plain_text) scenario = Ok scenario_cleaned.
Proof. reflexivity. Qed.

Lemma scenario_well_formed : well_formed scenario.
Proof. split; [no_dup_names | repeat constructor]. Qed.

(** C3 (counterexample).  A product without Category is in the table and
    the summary has no row for the missing value. *)
Lemma missing_category_has_no_row :
  getitem products_missing_category "Category"
  = Ok (ObjectS [Some "A"; None; Some "B"; Some "C"]) /\
  In (CFloat NaN) (cells (ObjectS [Some "A"; None; Some "B"; Some "C"])) /\
  exists summary,
    category_agg products_missing_category = Ok summary /\
    map Category summary = [CStr "A"; CStr "C"; CStr "B"] /\
    ~ In (CFloat NaN) (map Category summary).
Proof.
  split; [reflexivity|]. split; [simpl; auto|].
  eexists. split; [reflexivity|]. split; [reflexivity|].
  simpl. intros H. repeat (destruct H as [H|H]; [discriminate H|]). exact H.
Qed.

Lemma category_rows_distinct_present_witness :
  exists summary,
    category_agg products_missing_category = Ok summary /\
    NoDup (map Category summary) /\
    (forall k, In k (map Category summary) <->
               In k (cells (ObjectS [Some "A"; None; Some "B"; Some "C"])) /\
               isna k = false) /\
    ~ In (CFloat NaN) (map Category summary).
Proof.
  eexists. split; [reflexivity|].
  apply (category_rows_distinct_present products_missing_category _
           (ObjectS [Some "A"; None; Some "B"; Some "C"])); reflexivity.
Defined.


(** In the scenario the cutoff is 875: the first product is premium, the
    second is not, and the third, whose [MRP_clean] is missing, is not. *)
Example scenario_is_premium :
  float_eqb (quantile [float_of_Z 1000; float_of_Z 500; NaN] (Q2Qc (3 # 4)))
            (float_of_Z 875) = true /\
  (p <- feature_engineering scenario_cleaned ;; getitem p "Is_premium")
  = Ok (Int64S [1; 0; 0]).
Proof. split; reflexivity. Qed.

Lemma discount_ratio_finite_or_missing_witness :
  exists p r,
    feature_engineering free_product_cleaned = Ok p /\
    getitem p "Discount_ratio" = Ok (Float64S r) /\
    r = map (fun x => discount_ratio_spec (fst x) (snd x))
            (combine [float_of_Z 0; float_of_Z 1000]
                     (map float_of_Z [800; 800])) /\
    Forall (fun x => isnan x = true \/ isfinite x = true) r /\
    fdiv (fsub (float_of_Z 0) (float_of_Z 800)) (float_of_Z 0) = NInf /\
    discount_ratio_spec (float_of_Z 0) (float_of_Z 800) = NaN.
Proof.
  apply (discount_ratio_finite_or_missing free_product_cleaned
           (Float64S [float_of_Z 0; float_of_Z 1000])
           (Int64S [800; 800]) _ (map float_of_Z [800; 800]));
    reflexivity.
Defined.

(** The free product's ratio is missing, the other's is 0.2. *)
Example free_product_ratio :
  match (p <- feature_engineering free_product_cleaned ;;
         getitem p "Discount_ratio") with
  | Ok (Float64S [x; y]) => isnan x && float_eqb y (Fin (Q2Qc (1 # 5)))
  | _ => false
  end = true.
Proof. reflexivity. Qed.

(** C7 (counterexample).  In binary64 the totals need not add up.  Three
    products with the revenues 0.1, 0.3 and 1.1, the first and the last of
    category A: the total of A is 1.2000000000000002 and that of B is 0.3,
    with or without the compensation term; the totals add up to
    1.5000000000000002, the revenues in the order of the rows to 1.5. *)
Lemma float64_totals_do_not_add_up :
  Binary64.total_revenue Binary64.sum Binary64.categories Binary64.revenues
  = Binary64.category_totals /\
  Binary64.total_revenue Binary64.compensated_sum
    Binary64.categories Binary64.revenues
  = Binary64.category_totals /\
  Binary64.sum (map snd Binary64.category_totals) = Binary64.sum_of_totals /\
  Binary64.sum Binary64.revenues = Binary64.sum_of_revenues /\
  PrimFloat.eqb Binary64.sum_of_totals Binary64.sum_of_revenues = false /\
  PrimFloat.ltb Binary64.sum_of_revenues Binary64.sum_of_totals = true.
Proof. repeat split; vm_compute; reflexivity. Qed.

(** On the whole numbers of [products_missing_category] the binary64 totals
    are the totals of the model: 800 for A and for C, 0 for B. *)
Example binary64_whole_totals :
  Binary64.total_revenue Binary64.sum
    (cells (ObjectS [Some "A"; None; Some "B"; Some "C"])) Binary64.whole_revenues
  = Binary64.whole_totals /\
  Binary64.total_revenue Binary64.compensated_sum
    (cells (ObjectS [Some "A"; None; Some "B"; Some "C"])) Binary64.whole_revenues
  = Binary64.whole_totals.
Proof. split; vm_compute; reflexivity. Qed.

Lemma total_revenue_partition_witness :
  exists summary,
    category_agg products_missing_category = Ok summary /\
    map (fun row => (Category row, Total_Revenue row)) summary
    = [(CStr "A", float_of_Z 800); (CStr "C", float_of_Z 800); (CStr "B", float_of_Z 0)] /\
    Permutation
      (flat_map (fun row => group_of (Category row)
                              (cells (ObjectS [Some "A"; None; Some "B"; Some "C"]))
                              [float_of_Z 800; float_of_Z 500; NaN; float_of_Z 800])
                summary)
      [float_of_Z 800; NaN; float_of_Z 800] /\
    exists totals,
      map Total_Revenue summary = map float_of_Z totals /\
      Forall (fun t => Z.abs t <= 2 ^ 53) totals /\
      Zsum totals = 1600.
Proof.
  eexists. split; [reflexivity|]. split; [reflexivity|].
  destruct (total_revenue_partition products_missing_category _
              (ObjectS [Some "A"; None; Some "B"; Some "C"])
              (Float64S [float_of_Z 800; float_of_Z 500; NaN; float_of_Z 800])
              _ eq_refl eq_refl eq_refl eq_refl) as (_ & HP & HZ).
  split; [exact HP|].
  apply (HZ [Some 800; Some 500; None; Some 800]).
  - repeat constructor.
  - vm_compute. discriminate.
Defined.


Lemma exported_table_frame_witness :
  exists cleaned products,
    clean_numeric (py := plain_text) scenario = Ok cleaned /\
    feature_engineering cleaned = Ok products /\
    nrows products = 3%nat /\
    well_formed products /\
    column_names products
    = (column_names scenario ++ derived_columns)%list /\
    header (to_csv products false) = column_names products /\
    List.length (records (to_csv products false)) = 3%nat.
Proof.
  eexists. eexists. split; [reflexivity|]. split; [reflexivity|].
  destruct (exported_table_frame (py := plain_text) scenario _ _
              scenario_well_formed eq_refl eq_refl)
    as (Hn & Hw & Hc & _ & Hh & _ & Hl & _).
  repeat split; try assumption. apply Hw. apply Hw.
Defined.

(** The derived columns and the category totals of the scenario:
    [Discount_value] 200, 0 and missing; [Discount_ratio] 0.2, 0 and
    missing; category A with 1300 and category B with 300. *)
Example scenario_end_to_end :
  match (cleaned <- clean_numeric (py := plain_text) scenario ;;
         feature_engineering cleaned) with
  | Ok products =>
      match getitem products "Discount_value", getitem products "Discount_ratio",
            category_agg products with
      | Ok (Float64S [v1; v2; v3]), Ok (Float64S [r1; r2; r3]), Ok [a; b] =>
          float_eqb v1 (float_of_Z 200) && float_eqb v2 (float_of_Z 0) && isnan v3 &&
          float_eqb r1 (Fin (Q2Qc (1 # 5))) && float_eqb r2 (float_of_Z 0) && isnan r3 &&
          cell_eqb (Category a) (CStr "A") &&
          float_eqb (Total_Revenue a) (float_of_Z 1300) &&
          cell_eqb (Category b) (CStr "B") &&
          float_eqb (Total_Revenue b) (float_of_Z 300)
      | _, _, _ => false
      end
  | Raise _ => false
  end = true.
Proof. reflexivity. Qed.

(** * Further properties *)

(** ** Cleaning: when it succeeds and how it fails *)

Lemma getitem_Raise (df : DataFrame) (k : string) :
  has_name k (column_names df) = false -> getitem df k = Raise (KeyError k).
Proof.
  intros H. unfold getitem. destruct (lookup k (columns df)) as [s|] eqn:E.
  - apply lookup_In in E. apply (in_map fst) in E.
    apply has_name_In in E. unfold column_names in H. simpl in E. congruence.
  - reflexivity.
Qed.

Lemma getitem_total (df : DataFrame) (k : string) :
  has_name k (column_names df) = true -> exists s, getitem df k = Ok s.
Proof.
  intros H. unfold getitem. destruct (lookup k (columns df)) as [s|] eqn:E; eauto.
  apply has_name_In in H. unfold column_names in H.
  apply in_map_iff in H as ([n s] & <- & Hin). exfalso.
  revert E. clear - Hin. induction (columns df) as [|[n' s'] t IH]; simpl.
  - contradiction.
  - destruct Hin as [[= -> ->] | Hin]; [now rewrite String.eqb_refl|].
    destruct (String.eqb n n'); [discriminate | now apply IH].
Qed.

Lemma mapM_float_of_match_Ok (texts : list string) :
  (exists l, mapM float_of_match (map str_extract texts) = Ok l) <->
  Forall (fun t => valid_discount t = true) texts.
Proof.
  induction texts as [|t ts IH]; simpl.
  - split; [constructor | eauto].
  - unfold valid_discount at 1. split.
    + intros [l H]. destruct (str_extract t) as [r|] eqn:Er; simpl in H.
      * destruct (float_of_run r) eqn:Ef; [|discriminate]. cbn [bind] in H.
        destruct (mapM float_of_match (map str_extract ts)) eqn:Em; [|discriminate].
        constructor; [unfold valid_discount; now rewrite Er, Ef | apply IH; eauto].
      * cbn [bind] in H.
        destruct (mapM float_of_match (map str_extract ts)) eqn:Em; [|discriminate].
        constructor; [unfold valid_discount; now rewrite Er | apply IH; eauto].
    + intros H. inversion H as [|? ? Ht Hts]; subst.
      apply IH in Hts as [l Hl]. unfold valid_discount in Ht.
      destruct (str_extract t) as [r|]; simpl.
      * destruct (float_of_run r); [|discriminate]. cbn [bind].
        rewrite Hl. cbn [bind]. eauto.
      * cbn [bind]. rewrite Hl. cbn [bind]. eauto.
Qed.

(** X1.  Steps 3.1 to 3.3 succeed exactly on the tables that have the
    columns MRP, SellPrice and Discount and in which every Discount text has
    no numeric run or a run that is a number. *)
Theorem clean_numeric_succeeds_iff {py : PyText} (data_raw : DataFrame) :
  (exists products, clean_numeric data_raw = Ok products) <->
  (exists mrp sp d,
      getitem data_raw "MRP" = Ok mrp /\
      getitem data_raw "SellPrice" = Ok sp /\
      getitem data_raw "Discount" = Ok d /\
      Forall (fun t => valid_discount t = true) (astype_str d)).
Proof.
  split.
  - intros [products H]. unfold clean_numeric in H.
    destruct (clean_mrp data_raw) as [p1|] eqn:E1; [|discriminate]. cbn [bind] in H.
    destruct (clean_sellprice p1) as [p2|] eqn:E2; [|discriminate]. cbn [bind] in H.
    pose proof (clean_mrp_frame _ _ E1) as (_ & _ & G1 & _).
    pose proof (clean_sellprice_frame _ _ E2) as ((_ & _ & G2 & _) & _).
    destruct (getitem data_raw "MRP") as [mrp|] eqn:Hm.
    2:{ unfold clean_mrp in E1. rewrite Hm in E1. discriminate. }
    destruct (getitem p1 "SellPrice") as [sp|] eqn:Hs.
    2:{ unfold clean_sellprice in E2. rewrite Hs in E2. discriminate. }
    destruct (getitem p2 "Discount") as [d|] eqn:Hd.
    2:{ unfold clean_discount in H. rewrite Hd in H. discriminate. }
    rewrite (clean_discount_eq _ _ Hd) in H.
    exists mrp, sp, d. repeat split.
    + rewrite <- Hs. symmetry. apply G1. simpl. intuition discriminate.
    + rewrite <- Hd, G2, G1; [reflexivity | |]; simpl; intuition discriminate.
    + apply mapM_float_of_match_Ok.
      destruct (mapM float_of_match (map str_extract (astype_str d))); [eauto|].
      discriminate.
  - intros (mrp & sp & d & Hm & Hs & Hd & Hv). unfold clean_numeric.
    rewrite (clean_mrp_eq _ _ Hm). cbn [bind]. unfold clean_sellprice.
    rewrite !getitem_setitem_other by discriminate. rewrite Hs. cbn [bind].
    erewrite clean_discount_eq
      by (rewrite !getitem_setitem_other by discriminate; exact Hd).
    apply mapM_float_of_match_Ok in Hv as [l ->]. cbn [bind]. eauto.
Qed.

(** X2.  When one of the columns MRP, SellPrice, Discount is absent, the
    run stops with a [KeyError] that names the first absent one, in this
    order. *)
Theorem run_missing_column_KeyError {py : PyText} (data_raw : DataFrame) (k : string) :
  first_missing data_raw = Some k ->
  clean_numeric data_raw = Raise (KeyError k) /\
  run data_raw = Raise (KeyError k).
Proof.
  intros H.
  assert (E : clean_numeric data_raw = Raise (KeyError k)).
  { unfold first_missing in H. cbn [find] in H. unfold clean_numeric.
    destruct (has_name "MRP" (column_names data_raw)) eqn:Em; cbn [negb] in H.
    2:{ injection H as <-. unfold clean_mrp.
        now rewrite (getitem_Raise _ _ Em). }
    destruct (getitem_total _ _ Em) as [mrp Hm].
    rewrite (clean_mrp_eq _ _ Hm). cbn [bind]. unfold clean_sellprice.
    rewrite !getitem_setitem_other by discriminate.
    destruct (has_name "SellPrice" (column_names data_raw)) eqn:Es; cbn [negb] in H.
    2:{ injection H as <-. now rewrite (getitem_Raise _ _ Es). }
    destruct (getitem_total _ _ Es) as [sp Hs]. rewrite Hs. cbn [bind].
    destruct (has_name "Discount" (column_names data_raw)) eqn:Ed; cbn [negb] in H;
      [discriminate|].
    injection H as <-. unfold clean_discount.
    rewrite !getitem_setitem_other by discriminate.
    now rewrite (getitem_Raise _ _ Ed). }
  split; [exact E|]. unfold run, clean. now rewrite E.
Qed.

(** A table without SellPrice. *)
Lemma run_missing_column_KeyError_witness :
  first_missing
    (mkDataFrame 1 [("MRP", ObjectS [Some "500"]);
                    ("Discount", ObjectS [Some "5%"])])
  = Some "SellPrice" /\
  run (py := plain_text)
    (mkDataFrame 1 [("MRP", ObjectS [Some "500"]);
                    ("Discount", ObjectS [Some "5%"])])
  = Raise (KeyError "SellPrice").
Proof.
  split; [reflexivity|].
  apply (run_missing_column_KeyError (py := plain_text)
           (mkDataFrame 1 [("MRP", ObjectS [Some "500"]);
                           ("Discount", ObjectS [Some "5%"])]) "SellPrice").
  reflexivity.
Defined.

(** ** Cleaning: what the cleaned numbers can be *)

Lemma Q2Qc_nonneg (n : Z) (p : positive) : 0 <= n -> (Q2Qc 0 <= Q2Qc (n # p))%Qc.
Proof.
  intros Hn. unfold Qcle, Q2Qc. cbn [this]. rewrite !Qred_correct.
  unfold Qle. simpl. lia.
Qed.

Lemma float_of_run_nonneg (s : string) (x : float) :
  float_of_run s = Some x -> exists q, x = Fin q /\ (Q2Qc 0 <= q)%Qc.
Proof.
  unfold float_of_run. destruct (split_dot s) as [a r].
  destruct (0 <? _)%nat; [|discriminate].
  unfold Z_of_digits.
  destruct (NilEmpty.uint_of_string _) as [d|]; [|discriminate].
  intros [= <-]. eexists. split; [reflexivity|].
  apply Q2Qc_nonneg. unfold Z.of_uint. apply N2Z.is_nonneg.
Qed.

Lemma to_numeric_text_run_nonneg {py : PyText} (r : string) :
  string_forallb in_class r = true -> nonneg_or_missing (to_numeric_text r).
Proof.
  intros H. rewrite (to_numeric_text_class _ H).
  destruct (float_of_run r) as [x|] eqn:E; [|exact I].
  destruct (float_of_run_nonneg _ _ E) as (q & -> & Hq). exact Hq.
Qed.

Lemma mrp_clean_text_nonneg {py : PyText} (t : string) :
  nonneg_or_missing (mrp_clean_text t).
Proof.
  unfold mrp_clean_text.
  destruct (str_extract (str_replace_comma t)) as [r|] eqn:E; [|exact I].
  apply to_numeric_text_run_nonneg. exact (str_extract_forallb _ _ E).
Qed.

(** X3.  Whatever the MRP column holds, text or numbers, step 3.1 succeeds
    with one [MRP_clean] per row, each missing or a number that is not
    negative: a negative price never comes out of the cleaning. *)
Theorem mrp_clean_never_negative {py : PyText} (products : DataFrame) (mrp : Series) :
  getitem products "MRP" = Ok mrp ->
  exists p m,
    clean_mrp products = Ok p /\
    getitem p "MRP_clean" = Ok (Float64S m) /\
    List.length m = size mrp /\
    Forall nonneg_or_missing m.
Proof.
  intros H. eexists. eexists. split; [exact (clean_mrp_eq _ _ H)|].
  split; [apply getitem_setitem_same|]. split.
  - now rewrite length_map, astype_str_length.
  - apply Forall_forall. intros x Hx. apply in_map_iff in Hx as (t & <- & _).
    apply mrp_clean_text_nonneg.
Qed.

Lemma mrp_clean_never_negative_witness :
  exists p m,
    clean_mrp (py := plain_text) numeric_mrp = Ok p /\
    getitem p "MRP_clean" = Ok (Float64S m) /\
    List.length m = size (Int64S [-5]) /\
    Forall nonneg_or_missing m.
Proof.
  apply (mrp_clean_never_negative (py := plain_text) numeric_mrp (Int64S [-5])).
  reflexivity.
Defined.

Lemma mapM_Forall {A B : Type} (f : A -> result B) (P : B -> Prop)
      (l : list A) (m : list B) :
  (forall a b, In a l -> f a = Ok b -> P b) ->
  mapM f l = Ok m -> Forall P m.
Proof.
  revert m. induction l as [|a t IH]; intros m Hf H; simpl in H.
  - injection H as <-. constructor.
  - destruct (f a) as [b|] eqn:Ea; [|discriminate]. cbn [bind] in H.
    destruct (mapM f t) as [bs|] eqn:Et; [|discriminate]. cbn [bind] in H.
    injection H as <-. constructor.
    + apply (Hf a b); [now left | exact Ea].
    + apply IH; [|reflexivity]. intros a' b' Ha'. apply Hf. now right.
Qed.

(** X4.  When step 3.3 succeeds, [Discount_pct] has one value per row and
    each is missing or a number that is not negative. *)
Theorem discount_pct_never_negative {py : PyText}
        (products p : DataFrame) (d : Series) :
  getitem products "Discount" = Ok d ->
  clean_discount products = Ok p ->
  exists l,
    getitem p "Discount_pct" = Ok (Float64S l) /\
    List.length l = size d /\
    Forall nonneg_or_missing l.
Proof.
  intros Hd H. rewrite (clean_discount_eq _ _ Hd) in H.
  destruct (mapM float_of_match (map str_extract (astype_str d))) as [l|] eqn:El;
    [|discriminate].
  cbn [bind] in H. injection H as <-. exists l.
  split; [apply getitem_setitem_same|]. split.
  - now rewrite (mapM_length _ _ _ El), length_map, astype_str_length.
  - apply (mapM_Forall float_of_match nonneg_or_missing
             (map str_extract (astype_str d)) l); [|exact El].
    intros o x _ Ho. destruct o as [r|]; simpl in Ho.
    + destruct (float_of_run r) as [y|] eqn:Er; [|discriminate].
      injection Ho as <-.
      destruct (float_of_run_nonneg _ _ Er) as (q & -> & Hq). exact Hq.
    + injection Ho as <-. exact I.
Qed.

Lemma discount_pct_never_negative_witness :
  exists p l,
    clean_discount (py := plain_text) numeric_mrp = Ok p /\
    getitem p "Discount_pct" = Ok (Float64S l) /\
    List.length l = 1%nat /\
    Forall nonneg_or_missing l.
Proof.
  eexists. 
  destruct (discount_pct_never_negative (py := plain_text) numeric_mrp _
              (ObjectS [Some "10% off"]) eq_refl eq_refl) as (l & Hl & Hn & Hf).
  exists l. split; [reflexivity|]. auto.
Defined.

Lemma astype_str_missing {py : PyText} (s : Series) (i : nat) :
  nth_error (cells s) i = Some (CFloat NaN) ->
  nth_error (astype_str s) i = Some "nan".
Proof.
  destruct s as [l|l|l]; simpl; rewrite !nth_error_map;
    destruct (nth_error l i) as [x|]; simpl; try discriminate.
  - destruct x; simpl; [discriminate | reflexivity].
  - intros [= ->]. reflexivity.
Qed.

(** X5.  A missing value stays missing: on a row whose MRP is missing
    [MRP_clean] is missing, and on a row whose Discount is missing
    [Discount_pct] is missing whenever step 3.3 succeeds.  (The missing value
    is first turned into the text "nan", which has no numeric run.) *)
Theorem missing_stays_missing {py : PyText}
        (products : DataFrame) (mrp d : Series) (i : nat) :
  getitem products "MRP" = Ok mrp ->
  getitem products "Discount" = Ok d ->
  (nth_error (cells mrp) i = Some (CFloat NaN) ->
   exists m,
     (p <- clean_mrp products ;; getitem p "MRP_clean") = Ok (Float64S m) /\
     nth_error m i = Some NaN) /\
  (nth_error (cells d) i = Some (CFloat NaN) ->
   forall p, clean_discount products = Ok p ->
   exists l,
     getitem p "Discount_pct" = Ok (Float64S l) /\
     nth_error l i = Some NaN).
Proof.
  intros Hm Hd. split.
  - intros Hi. eexists. split; [exact (clean_mrp_column _ _ Hm)|].
    rewrite nth_error_map, (astype_str_missing _ _ Hi). reflexivity.
  - intros Hi p Hp. rewrite (clean_discount_eq _ _ Hd) in Hp.
    destruct (mapM float_of_match (map str_extract (astype_str d))) as [l|] eqn:El;
      [|discriminate].
    cbn [bind] in Hp. injection Hp as <-. exists l.
    split; [apply getitem_setitem_same|].
    destruct (mapM_Ok_nth _ _ _ El i None) as (x & Hx & Hf).
    + rewrite nth_error_map, (astype_str_missing _ _ Hi). reflexivity.
    + simpl in Hf. injection Hf as <-. exact Hx.
Qed.

Lemma missing_stays_missing_witness :
  (exists m,
     (p <- clean_mrp (py := plain_text) unpriced_product ;; getitem p "MRP_clean")
     = Ok (Float64S m) /\
     nth_error m 0 = Some NaN) /\
  (forall p, clean_discount (py := plain_text) unpriced_product = Ok p ->
   exists l,
     getitem p "Discount_pct" = Ok (Float64S l) /\
     nth_error l 0 = Some NaN) /\
  exists p, clean_discount (py := plain_text) unpriced_product = Ok p.
Proof.
  destruct (missing_stays_missing (py := plain_text) unpriced_product
              (ObjectS [None]) (Float64S [NaN]) 0 eq_refl eq_refl) as [Hm Hd].
  split; [exact (Hm eq_refl)|]. split; [exact (Hd eq_refl)|].
  eexists. reflexivity.
Defined.

(** ** Step 3.2 *)

Lemma assign_assign (k : string) (v v' : Series) (cols : list (string * Series)) :
  assign k v' (assign k v cols) = assign k v' cols.
Proof.
  induction cols as [|[n s] t IH]; simpl.
  - now rewrite String.eqb_refl.
  - destruct (String.eqb k n) eqn:E; simpl; rewrite E; [reflexivity | now rewrite IH].
Qed.

Lemma assign_present (k : string) (v : Series) (cols : list (string * Series)) :
  lookup k cols = Some v -> assign k v cols = cols.
Proof.
  induction cols as [|[n s] t IH]; simpl; [discriminate|].
  destruct (String.eqb k n) eqn:E.
  - intros [= ->]. reflexivity.
  - intros H. now rewrite IH.
Qed.

Lemma setitem_setitem (df : DataFrame) (k : string) (v v' : Series) :
  setitem (setitem df k v) k v' = setitem df k v'.
Proof. unfold setitem. simpl. now rewrite assign_assign. Qed.

Lemma setitem_present (df : DataFrame) (k : string) (v : Series) :
  getitem df k = Ok v -> setitem df k v = df.
Proof.
  intros H. apply getitem_Ok in H. unfold setitem.
  rewrite (assign_present _ _ _ H). now destruct df.
Qed.

Lemma to_numeric_coerce_idem {py : PyText} (s : Series) :
  to_numeric_coerce (to_numeric_coerce s) = to_numeric_coerce s.
Proof. now destruct s. Qed.

Lemma to_numeric_coerce_numeric {py : PyText} (s : Series) :
  exists l, as_floats (to_numeric_coerce s) = Ok l /\ List.length l = size s.
Proof.
  destruct s as [l|l|l]; simpl; eexists; split; try reflexivity;
    now rewrite !length_map.
Qed.

(** X6.  Step 3.2 fails only when the table has no SellPrice column.  It
    leaves a numeric SellPrice with one value per row, it returns a numeric
    column as it is, and running it again changes nothing. *)
Theorem clean_sellprice_numeric_idempotent {py : PyText}
        (products : DataFrame) (sp : Series) :
  getitem products "SellPrice" = Ok sp ->
  exists p s l,
    clean_sellprice products = Ok p /\
    getitem p "SellPrice" = Ok s /\
    as_floats s = Ok l /\ List.length l = size sp /\
    (forall x, as_floats sp = Ok x -> s = sp /\ p = products) /\
    clean_sellprice p = Ok p.
Proof.
  intros H. destruct (to_numeric_coerce_numeric sp) as (l & Hl & Hn).
  exists (setitem products "SellPrice" (to_numeric_coerce sp)),
         (to_numeric_coerce sp), l.
  unfold clean_sellprice. rewrite H. cbn [bind].
  rewrite getitem_setitem_same. cbn [bind].
  repeat split; auto.
  - destruct sp; simpl in *; [discriminate | reflexivity | reflexivity].
  - destruct sp; simpl in *; try discriminate; now apply setitem_present.
  - now rewrite setitem_setitem, to_numeric_coerce_idem.
Qed.

Lemma clean_sellprice_numeric_idempotent_witness :
  exists p s l,
    clean_sellprice (py := plain_text) scenario = Ok p /\
    getitem p "SellPrice" = Ok s /\
    as_floats s = Ok l /\ List.length l = size (Int64S [800; 500; 300]) /\
    (forall x, as_floats (Int64S [800; 500; 300]) = Ok x ->
               s = Int64S [800; 500; 300] /\ p = scenario) /\
    clean_sellprice (py := plain_text) p = Ok p.
Proof.
  apply (clean_sellprice_numeric_idempotent (py := plain_text) scenario
           (Int64S [800; 500; 300])).
  reflexivity.
Defined.

(** ** Section 4 *)

Lemma nth_error_combine {A B : Type} (l : list A) (l' : list B) (i : nat) (a : A) (b : B) :
  nth_error l i = Some a -> nth_error l' i = Some b ->
  nth_error (combine l l') i = Some (a, b).
Proof.
  revert l l'. induction i as [|i IH]; intros [|x l] [|y l']; simpl; try discriminate.
  - now intros [= ->] [= ->].
  - apply IH.
Qed.

Lemma Qcinv_pos (a : Qc) : (Q2Qc 0 < a)%Qc -> (Q2Qc 0 < / a)%Qc.
Proof.
  unfold Qclt, Qcinv, Q2Qc. cbn [this]. rewrite !Qred_correct.
  apply Qinv_lt_0_compat.
Qed.

Lemma Qc_sign_pos (a : Qc) : (Q2Qc 0 < a)%Qc -> Qc_sign a = Gt.
Proof. intros H. unfold Qc_sign. now apply Qcgt_alt. Qed.

Lemma unit_ratio (a b : Qc) :
  (Q2Qc 0 < a)%Qc -> (Q2Qc 0 <= b)%Qc -> (b <= a)%Qc ->
  (Q2Qc 0 <= (a - b) / a)%Qc /\ ((a - b) / a <= Q2Qc 1)%Qc /\
  ((a - b) / a * a = a - b)%Qc.
Proof.
  intros Ha Hb Hba.
  assert (Hi : (Q2Qc 0 <= / a)%Qc) by now apply Qclt_le_weak, Qcinv_pos.
  assert (Hne : a <> Q2Qc 0).
  { intros ->. now apply (Qclt_not_eq _ _ Ha). }
  assert (Hc0 : (Q2Qc 0 <= a - b)%Qc).
  { apply Qcle_minus_iff in Hba. exact Hba. }
  assert (Hca : (a - b <= a)%Qc).
  { apply Qcle_minus_iff. replace (a + - (a - b))%Qc with b by ring. exact Hb. }
  unfold Qcdiv. repeat split.
  - rewrite <- (Qcmult_0_l (/ a)). now apply Qcmult_le_compat_r.
  - rewrite <- (Qcmult_inv_r a Hne). now apply Qcmult_le_compat_r.
  - rewrite <- Qcmult_assoc, (Qcmult_inv_l a Hne). ring.
Qed.

(** X7.  On a row with a positive [MRP_clean] and a [SellPrice] between 0
    and [MRP_clean], [Discount_value] is their difference and
    [Discount_ratio] is the quotient of that difference by [MRP_clean], a
    fraction between 0 and 1. *)
Theorem discount_ratio_unit_interval
        (products : DataFrame) (mrp sp : Series) (m s : list float)
        (i : nat) (a b : Qc) :
  getitem products "MRP_clean" = Ok mrp -> as_floats mrp = Ok m ->
  getitem products "SellPrice" = Ok sp -> as_floats sp = Ok s ->
  nth_error m i = Some (Fin a) -> nth_error s i = Some (Fin b) ->
  (Q2Qc 0 < a)%Qc -> (Q2Qc 0 <= b)%Qc -> (b <= a)%Qc ->
  exists p dv r q,
    feature_engineering products = Ok p /\
    getitem p "Discount_value" = Ok (Float64S dv) /\
    nth_error dv i = Some (Fin (a - b)%Qc) /\
    getitem p "Discount_ratio" = Ok (Float64S r) /\
    nth_error r i = Some (Fin q) /\
    q = ((a - b) / a)%Qc /\ (Q2Qc 0 <= q)%Qc /\ (q <= Q2Qc 1)%Qc.
Proof.
  intros Hmrp Hm Hsp Hs Hi Hj Ha Hb Hba.
  destruct (unit_ratio a b Ha Hb Hba) as (H0 & H1 & _).
  eexists. eexists. eexists. exists ((a - b) / a)%Qc.
  split; [exact (feature_engineering_eq _ _ _ _ _ Hmrp Hm Hsp Hs)|].
  split; [now getitems|].
  split; [now rewrite nth_error_map, (nth_error_combine _ _ _ _ _ Hi Hj)|].
  split; [now getitems|].
  split; [|auto].
  rewrite mask_nonfinite_ratio, nth_error_map, (nth_error_combine _ _ _ _ _ Hi Hj).
  cbn [option_map fst snd]. unfold discount_ratio_spec. cbn [fsub fneg fadd fdiv].
  now rewrite (Qc_sign_pos a Ha).
Qed.

Lemma discount_ratio_unit_interval_witness :
  exists p dv r q,
    feature_engineering scenario_cleaned = Ok p /\
    getitem p "Discount_value" = Ok (Float64S dv) /\
    nth_error dv 0 = Some (Fin (Q2Qc 1000 - Q2Qc 800)%Qc) /\
    getitem p "Discount_ratio" = Ok (Float64S r) /\
    nth_error r 0 = Some (Fin q) /\
    q = ((Q2Qc 1000 - Q2Qc 800) / Q2Qc 1000)%Qc /\
    (Q2Qc 0 <= q)%Qc /\ (q <= Q2Qc 1)%Qc.
Proof.
  apply (discount_ratio_unit_interval scenario_cleaned
           (Float64S [float_of_Z 1000; float_of_Z 500; NaN])
           (Int64S [800; 500; 300])
           [float_of_Z 1000; float_of_Z 500; NaN]
           (map float_of_Z [800; 500; 300]) 0
           (Q2Qc (inject_Z 1000)) (Q2Qc (inject_Z 800)));
    try reflexivity; unfold Qclt, Qcle; simpl; unfold Qlt, Qle; simpl; lia.
Defined.

(** X8.  Section 4 is idempotent: run on its own result it recomputes the
    same derived columns and returns the same table. *)
Theorem feature_engineering_idempotent (products p : DataFrame) :
  feature_engineering products = Ok p -> feature_engineering p = Ok p.
Proof.
  intros H.
  destruct (feature_engineering_inv _ _ H) as (mrp & sp & m & s & Hm & Hfm & Hs & Hfs).
  rewrite (feature_engineering_eq _ _ _ _ _ Hm Hfm Hs Hfs) in H.
  injection H as <-.
  set (dv := map (fun x => fsub (fst x) (snd x)) (combine m s)).
  set (ratio := map (fun x => fdiv (fst x) (snd x)) (combine dv m)).
  set (flags := map (fun x => b2z (fge x (quantile m (Q2Qc (3 # 4))))) m).
  set (p := setitem _ "Is_premium" (Int64S flags)).
  assert (Hm' : getitem p "MRP_clean" = Ok mrp) by (unfold p; now getitems).
  assert (Hs' : getitem p "SellPrice" = Ok sp) by (unfold p; now getitems).
  rewrite (feature_engineering_eq _ _ _ _ _ Hm' Hfm Hs' Hfs).
  fold dv ratio flags. f_equal.
  rewrite (setitem_present p "Discount_value") by (unfold p; now getitems).
  rewrite setitem_setitem.
  rewrite (setitem_present p "Discount_ratio") by (unfold p; now getitems).
  rewrite (setitem_present p "Revenue") by (unfold p; now getitems).
  apply setitem_present. unfold p. now getitems.
Qed.

Lemma feature_engineering_idempotent_witness :
  exists p,
    feature_engineering scenario_cleaned = Ok p /\
    feature_engineering p = Ok p.
Proof.
  eexists. split; [reflexivity|].
  apply (feature_engineering_idempotent scenario_cleaned). reflexivity.
Defined.

(** ** Order of the floats *)

Lemma fge_refl (x : float) : isnan x = false -> fge x x = true.
Proof.
  destruct x; simpl; try reflexivity; try discriminate.
  intros _. apply (fge_Fin q q). apply Qcle_refl.
Qed.

Lemma fge_trans (x y z : float) :
  fge x y = true -> fge y z = true -> fge x z = true.
Proof.
  destruct x as [a| | |], y as [b| | |], z as [c| | |];
    try reflexivity; try discriminate.
  intros H1 H2. apply fge_Fin in H1. apply fge_Fin in H2. apply fge_Fin.
  now apply (Qcle_trans _ b).
Qed.

Lemma fge_total (x y : float) :
  isnan x = false -> isnan y = false -> fge x y = false -> fge y x = true.
Proof. intros Hx Hy H. apply (fle_total y x Hy Hx). exact H. Qed.

Lemma desc_le_total (x y : float) : desc_le x y = false -> desc_le y x = true.
Proof.
  unfold desc_le. destruct (isnan y) eqn:Ey; [discriminate|].
  destruct (isnan x) eqn:Ex; [reflexivity|]. now apply fge_total.
Qed.

Lemma desc_le_trans (x y z : float) :
  desc_le x y = true -> desc_le y z = true -> desc_le x z = true.
Proof.
  unfold desc_le. destruct (isnan z) eqn:Ez; [reflexivity|].
  destruct (isnan y) eqn:Ey; [discriminate|].
  destruct (isnan x) eqn:Ex; [discriminate|]. apply fge_trans.
Qed.

Lemma insert_by_Sorted {A : Type} (le : A -> A -> bool) (x : A) (l : list A) :
  (forall a b, le a b = false -> le b a = true) ->
  Sorted (fun a b => le a b = true) l ->
  Sorted (fun a b => le a b = true) (insert_by le x l).
Proof.
  intros Ht Hs. induction l as [|y t IH]; simpl.
  - repeat constructor.
  - destruct (le x y) eqn:E.
    + constructor; [exact Hs | now constructor].
    + inversion Hs as [|? ? Hst Hhd]; subst.
      constructor; [now apply IH|].
      destruct t as [|z t]; simpl.
      * constructor. now apply Ht.
      * destruct (le x z); constructor; [now apply Ht | now inversion Hhd].
Qed.

Lemma sort_by_Sorted {A : Type} (le : A -> A -> bool) (l : list A) :
  (forall a b, le a b = false -> le b a = true) ->
  Sorted (fun a b => le a b = true) (sort_by le l).
Proof.
  intros Ht. induction l as [|x t IH]; simpl; [constructor|].
  now apply insert_by_Sorted.
Qed.

Lemma sort_by_StronglySorted {A : Type} (le : A -> A -> bool) (l : list A) :
  (forall a b, le a b = false -> le b a = true) ->
  (forall a b c, le a b = true -> le b c = true -> le a c = true) ->
  StronglySorted (fun a b => le a b = true) (sort_by le l).
Proof.
  intros Ht Htr. apply Sorted_StronglySorted.
  - intros a b c. apply Htr.
  - now apply sort_by_Sorted.
Qed.

(** ** The summaries *)

(** X9.  The rows of the category summary come in descending order of
    [Total_Revenue]: of two rows the earlier one has a revenue at least that
    of the later one, and a row whose revenue is missing comes after every
    row whose revenue is present. *)
Theorem category_summary_sorted (products : DataFrame) (summary : list CategoryRow) :
  category_agg products = Ok summary ->
  StronglySorted (fun a b => revenue_desc (Total_Revenue a) (Total_Revenue b)) summary /\
  (forall pre a mid b post,
      summary = (pre ++ a :: mid ++ b :: post)%list ->
      isnan (Total_Revenue b) = true \/
      (isnan (Total_Revenue a) = false /\
       fge (Total_Revenue a) (Total_Revenue b) = true)).
Proof.
  intros H.
  destruct (category_agg_inv _ _ H)
    as (cat & pid & rev & r & mrp & sp & pct & prem & _ & _ & _ & ->).
  match goal with |- StronglySorted _ ?l /\ _ => set (sorted := l) end.
  assert (S : StronglySorted
                (fun a b => revenue_desc (Total_Revenue a) (Total_Revenue b)) sorted).
  { unfold revenue_desc. apply sort_by_StronglySorted.
    - intros a b. apply desc_le_total.
    - intros a b c. apply desc_le_trans. }
  split; [exact S|].
  intros pre a mid b post E. rewrite E in S. clear E.
  induction pre as [|x pre IH]; simpl in S.
  - apply StronglySorted_inv in S as [_ Hall].
    rewrite Forall_forall in Hall.
    assert (Hb : revenue_desc (Total_Revenue a) (Total_Revenue b)).
    { apply Hall. apply in_or_app. right. now left. }
    unfold revenue_desc, desc_le in Hb.
    destruct (isnan (Total_Revenue b)); [now left|].
    destruct (isnan (Total_Revenue a)); [discriminate|]. now right.
  - apply StronglySorted_inv in S as [S _]. now apply IH.
Qed.

Lemma category_summary_sorted_witness :
  exists summary,
    category_agg products_missing_category = Ok summary /\
    StronglySorted (fun a b => revenue_desc (Total_Revenue a) (Total_Revenue b))
                   summary.
Proof.
  eexists. split; [reflexivity|].
  apply (category_summary_sorted products_missing_category). reflexivity.
Defined.

Lemma brand_agg_inv (products : DataFrame) (summary : list BrandRow) :
  brand_agg products = Ok summary ->
  exists brand pid rev r mrp pct,
    getitem products "BrandName" = Ok brand /\
    getitem products "Revenue" = Ok rev /\
    as_floats rev = Ok r /\
    summary =
    sort_by (fun a b => desc_le (Brand_Total_Revenue a) (Brand_Total_Revenue b))
      (map (brand_row (cells brand) pid r mrp pct) (group_keys (cells brand))).
Proof.
  unfold brand_agg. intros H. repeat bind_inv H.
  injection H as <-. repeat eexists; eauto.
Qed.

(** X10.  The brand summary has exactly one row per distinct non-missing
    BrandName; the groups of its rows partition the products that have a
    brand, each counted once; when the revenues are whole numbers whose
    absolute values add up to at most [2 ^ 53], its revenues add up to the
    revenue of the products that have a brand and a revenue; and its rows
    come in descending order of revenue. *)
Theorem brand_summary_partition_sorted
        (products : DataFrame) (summary : list BrandRow)
        (brand rev : Series) (r : list float) :
  brand_agg products = Ok summary ->
  getitem products "BrandName" = Ok brand ->
  getitem products "Revenue" = Ok rev ->
  as_floats rev = Ok r ->
  NoDup (map BrandName summary) /\
  (forall k, In k (map BrandName summary) <-> In k (cells brand) /\ isna k = false) /\
  Permutation (flat_map (fun row => group_of (BrandName row) (cells brand) r) summary)
              (with_key (cells brand) r) /\
  (forall zs, whole_values r zs -> abs_sum zs <= 2 ^ 53 ->
     exists totals,
       map Brand_Total_Revenue summary = map float_of_Z totals /\
       Zsum totals = Zsum (present (with_key (cells brand) zs))) /\
  StronglySorted
    (fun a b => revenue_desc (Brand_Total_Revenue a) (Brand_Total_Revenue b))
    summary.
Proof.
  intros H Hb Hr Hf.
  destruct (brand_agg_inv _ _ H)
    as (brand' & pid & rev' & r' & mrp & pct & Hb' & Hr' & Hf' & E).
  rewrite Hb in Hb'. injection Hb' as <-.
  rewrite Hr in Hr'. injection Hr' as <-.
  rewrite Hf in Hf'. injection Hf' as <-.
  assert (P : Permutation (map BrandName summary) (group_keys (cells brand))).
  { rewrite E, sort_by_Permutation, map_map. simpl. now rewrite map_id. }
  assert (Hrow : forall row, In row summary ->
                   Brand_Total_Revenue row
                   = nansum (group_of (BrandName row) (cells brand) r)).
  { rewrite E. intros row Hin.
    apply (Permutation_in _ (sort_by_Permutation _ _)) in Hin.
    apply in_map_iff in Hin as (k & <- & _). reflexivity. }
  split; [|split; [|split; [|split]]].
  - apply (Permutation_NoDup (l := group_keys (cells brand)));
      [symmetry; exact P | apply group_keys_NoDup].
  - intros k. rewrite <- group_keys_In. split; apply Permutation_in;
      [exact P | symmetry; exact P].
  - rewrite <- groups_partition, <- (Permutation_flat_map _ P).
    now rewrite flat_map_comp.
  - intros zs Hw Hbound.
    destruct (group_totals_whole (cells brand) r zs (2 ^ 53) Hw Hbound) as [Hk Hsum].
    exists (map (fun row => Zsum (present (group_of (BrandName row) (cells brand) zs)))
                summary).
    split.
    + rewrite map_map. apply map_ext_in. intros row Hin.
      rewrite (Hrow _ Hin). apply Hk.
    + rewrite <- (Hsum _ P). now rewrite map_map.
  - rewrite E. unfold revenue_desc. apply sort_by_StronglySorted.
    + intros a b. apply desc_le_total.
    + intros a b c. apply desc_le_trans.
Qed.

Lemma brand_summary_partition_sorted_witness :
  exists summary,
    brand_agg products_by_brand = Ok summary /\
    map (fun row => (BrandName row, Brand_Total_Revenue row)) summary
    = [(CStr "x", float_of_Z 900); (CStr "y", float_of_Z 300)] /\
    NoDup (map BrandName summary) /\
    Permutation
      (flat_map (fun row => group_of (BrandName row)
                              (cells (ObjectS [Some "x"; None; Some "y"; Some "x"]))
                              [float_of_Z 800; float_of_Z 500; float_of_Z 300;
                               float_of_Z 100])
                summary)
      [float_of_Z 800; float_of_Z 300; float_of_Z 100] /\
    (exists totals,
       map Brand_Total_Revenue summary = map float_of_Z totals /\
       Zsum totals = 1200) /\
    StronglySorted
      (fun a b => revenue_desc (Brand_Total_Revenue a) (Brand_Total_Revenue b))
      summary.
Proof.
  eexists. split; [reflexivity|]. split; [reflexivity|].
  destruct (brand_summary_partition_sorted products_by_brand _
              (ObjectS [Some "x"; None; Some "y"; Some "x"])
              (Float64S [float_of_Z 800; float_of_Z 500; float_of_Z 300;
                         float_of_Z 100])
              _ eq_refl eq_refl eq_refl eq_refl) as (Hn & _ & HP & HZ & HS).
  split; [exact Hn|]. split; [exact HP|]. split; [|exact HS].
  apply (HZ [Some 800; Some 500; Some 300; Some 100]).
  - repeat constructor.
  - vm_compute. discriminate.
Defined.

Lemma Q2Qc_inject_Z_le (a b : Z) :
  a <= b -> (Q2Qc (inject_Z a) <= Q2Qc (inject_Z b))%Qc.
Proof.
  intros H. unfold Qcle, Q2Qc. cbn [this]. rewrite !Qred_correct.
  now rewrite <- Zle_Qle.
Qed.

Lemma Q2Qc_inject_Z_lt (a b : Z) :
  a < b -> (Q2Qc (inject_Z a) < Q2Qc (inject_Z b))%Qc.
Proof.
  intros H. unfold Qclt, Q2Qc. cbn [this]. rewrite !Qred_correct.
  now rewrite <- Zlt_Qlt.
Qed.

Lemma Qc_div_unit (c a : Qc) :
  (Q2Qc 0 < a)%Qc -> (Q2Qc 0 <= c)%Qc -> (c <= a)%Qc ->
  (Q2Qc 0 <= c / a)%Qc /\ (c / a <= Q2Qc 1)%Qc.
Proof.
  intros Ha Hc Hca.
  assert (H0 : (Q2Qc 0 <= a - c)%Qc) by now apply Qcle_minus_iff in Hca.
  assert (H1 : (a - c <= a)%Qc).
  { apply Qcle_minus_iff. replace (a + - (a - c))%Qc with c by ring. exact Hc. }
  destruct (unit_ratio a (a - c)%Qc Ha H0 H1) as (L & U & _).
  replace (a - (a - c))%Qc with c in L, U by ring. now split.
Qed.

Lemma fsum_flags (l : list float) :
  Forall (fun x => x = float_of_Z 0 \/ x = float_of_Z 1) l ->
  dropna l = l /\
  exists z, fsum l = float_of_Z z /\ 0 <= z <= Z.of_nat (List.length l).
Proof.
  induction 1 as [|x t Hx Ht (Hd & z & Hz & Hb)].
  - split; [reflexivity|]. exists 0. split; [reflexivity | simpl; lia].
  - split.
    + unfold dropna in *. simpl. destruct Hx as [-> | ->]; simpl; now rewrite Hd.
    + rewrite fsum_cons, Hz.
      destruct Hx as [-> | ->]; rewrite float_of_Z_plus; eexists;
        (split; [reflexivity|]); cbn [List.length]; lia.
Qed.

Lemma nanmean_flags (l : list float) :
  l <> [] ->
  Forall (fun x => x = float_of_Z 0 \/ x = float_of_Z 1) l ->
  exists q, nanmean l = Fin q /\ (Q2Qc 0 <= q)%Qc /\ (q <= Q2Qc 1)%Qc.
Proof.
  intros Hne Hl. destruct (fsum_flags l Hl) as (Hd & z & Hz & Hb).
  unfold nanmean. rewrite Hd. destruct l as [|x t]; [contradiction|].
  rewrite Hz. set (n := Z.of_nat (List.length (x :: t))) in *.
  assert (Hn : 0 < n) by (unfold n; simpl; lia).
  unfold float_of_Z, fdiv.
  rewrite (Qc_sign_pos _ (Q2Qc_inject_Z_lt 0 n Hn)).
  eexists. split; [reflexivity|].
  apply Qc_div_unit.
  - now apply (Q2Qc_inject_Z_lt 0 n).
  - apply (Q2Qc_inject_Z_le 0 z). lia.
  - apply Q2Qc_inject_Z_le. lia.
Qed.

Lemma category_agg_premium (products : DataFrame) (summary : list CategoryRow) :
  category_agg products = Ok summary ->
  exists cat prem f,
    getitem products "Category" = Ok cat /\
    getitem products "Is_premium" = Ok prem /\
    as_floats prem = Ok f /\
    forall row, In row summary ->
      In (Category row) (cells cat) /\
      Premium_share row = nanmean (group_of (Category row) (cells cat) f).
Proof.
  unfold category_agg. intros H. repeat bind_inv H. injection H as <-.
  do 3 eexists. repeat split; eauto.
  - apply (Permutation_in _ (sort_by_Permutation _ _)) in H.
    apply in_map_iff in H as (k & <- & Hk). simpl.
    now apply group_keys_In in Hk.
  - apply (Permutation_in _ (sort_by_Permutation _ _)) in H.
    apply in_map_iff in H as (k & <- & Hk). reflexivity.
Qed.

Lemma group_of_nonempty {A : Type} (k : cell) (keys : list cell) (vals : list A) :
  In k keys -> List.length keys = List.length vals -> group_of k keys vals <> [].
Proof.
  intros Hk Hl. apply In_nth_error in Hk as [i Hi].
  assert (Hlt : (i < List.length vals)%nat).
  { rewrite <- Hl. apply nth_error_Some. congruence. }
  destruct (nth_error vals i) as [v|] eqn:Ev.
  2:{ apply nth_error_None in Ev. lia. }
  pose proof (nth_error_combine _ _ _ _ _ Hi Ev) as Hc.
  apply nth_error_In in Hc. unfold group_of. intros E.
  assert (Hin : In v (map snd (filter (fun p => cell_eqb (fst p) k)
                                      (combine keys vals)))).
  { apply in_map_iff. exists (k, v). split; [reflexivity|].
    apply filter_In. split; [exact Hc | apply cell_eqb_refl]. }
  rewrite E in Hin. contradiction.
Qed.

Lemma cells_length (s : Series) : List.length (cells s) = size s.
Proof. destruct s; simpl; apply length_map. Qed.

(** X11.  After section 4 every row of the category summary has a
    [Premium_share] that is present and lies between 0 and 1: it is the mean
    of the 0/1 flags of a group that has at least one product. *)
Theorem premium_share_unit_interval
        (cleaned products : DataFrame) (summary : list CategoryRow)
        (row : CategoryRow) :
  well_formed cleaned ->
  feature_engineering cleaned = Ok products ->
  category_agg products = Ok summary ->
  In row summary ->
  exists q, Premium_share row = Fin q /\ (Q2Qc 0 <= q)%Qc /\ (q <= Q2Qc 1)%Qc.
Proof.
  intros Hwf Hf Ha Hrow.
  destruct (category_agg_premium _ _ Ha) as (cat & prem & f & Hc & Hp & Hpf & Hrows).
  destruct (Hrows row Hrow) as [Hk ->].
  pose proof (feature_engineering_frame _ _ Hf) as (Hn & _ & _ & Hw).
  specialize (Hw Hwf).
  destruct (feature_engineering_inv _ _ Hf) as (mrp & sp & m & s & Hm & Hfm & Hs & Hfs).
  rewrite (feature_engineering_eq _ _ _ _ _ Hm Hfm Hs Hfs) in Hf.
  injection Hf as Hf. rewrite <- Hf in Hp. rewrite getitem_setitem_same in Hp.
  injection Hp as <-. simpl in Hpf. injection Hpf as <-.
  apply nanmean_flags.
  - apply group_of_nonempty; [exact Hk|].
    rewrite cells_length, (getitem_size _ _ _ Hw Hc), Hn, !length_map.
    rewrite (as_floats_length _ _ Hfm). symmetry. exact (getitem_size _ _ _ Hwf Hm).
  - apply Forall_forall. intros x Hx. unfold group_of in Hx.
    apply in_map_iff in Hx as ([k v] & <- & Hin).
    apply filter_In in Hin as [Hin _]. apply in_combine_r in Hin.
    rewrite map_map in Hin. apply in_map_iff in Hin as (y & <- & _).
    simpl. destruct (fge y _); auto.
Qed.

Lemma scenario_cleaned_well_formed : well_formed scenario_cleaned.
Proof. split; [no_dup_names | repeat constructor]. Qed.

Lemma premium_share_unit_interval_witness :
  exists products summary,
    feature_engineering scenario_cleaned = Ok products /\
    category_agg products = Ok summary /\
    Forall (fun row =>
              exists q, Premium_share row = Fin q /\
                        (Q2Qc 0 <= q)%Qc /\ (q <= Q2Qc 1)%Qc) summary.
Proof.
  eexists. eexists. split; [reflexivity|]. split; [reflexivity|].
  apply Forall_forall. intros row Hrow.
  exact (premium_share_unit_interval scenario_cleaned _ _ row
           scenario_cleaned_well_formed eq_refl eq_refl Hrow).
Defined.

(** ** Insights and charts *)

Lemma fgt_fge_trans (x y z : float) :
  fgt x y = true -> fge y z = true -> fgt x z = true.
Proof.
  unfold fgt. intros H1 H2. apply andb_prop in H1 as [Hxy Hn].
  apply negb_true_iff in Hn. apply andb_true_intro. split.
  - now apply (fge_trans x y z).
  - apply negb_true_iff. destruct (fge z x) eqn:E; [|reflexivity].
    rewrite (fge_trans y z x H2 E) in Hn. discriminate.
Qed.

Lemma fgt_trans (x y z : float) :
  fgt x y = true -> fgt y z = true -> fgt x z = true.
Proof.
  intros H1 H2. apply (fgt_fge_trans x y z H1).
  unfold fgt in H2. now apply andb_prop in H2 as [H2 _].
Qed.

Lemma not_fgt_fge (x y : float) :
  isnan x = false -> isnan y = false -> fgt x y = false -> fge y x = true.
Proof.
  unfold fgt. intros Hx Hy H. destruct (fge y x) eqn:E; [reflexivity|].
  rewrite (fge_total y x Hy Hx E) in H. discriminate.
Qed.

Lemma argmax_from_maximum (l pre mid : list (cell * float)) (k : cell) (v : float) :
  Forall (fun p => isnan (snd p) = false) ((k, v) :: l) ->
  (forall p, In p pre -> fgt v (snd p) = true) ->
  (forall p, In p mid -> fge v (snd p) = true) ->
  exists pre' k' v' post',
    (pre ++ (k, v) :: mid ++ l = pre' ++ (k', v') :: post')%list /\
    argmax_from (k, v) l = k' /\
    (forall p, In p pre' -> fgt v' (snd p) = true) /\
    (forall p, In p post' -> fge v' (snd p) = true).
Proof.
  revert pre mid k v. induction l as [|[k2 v2] t IH]; intros pre mid k v Hn Hpre Hmid.
  - exists pre, k, v, mid. rewrite app_nil_r. auto.
  - inversion Hn as [|? ? Hv Hn']; subst. inversion Hn' as [|? ? Hv2 Ht]; subst.
    cbn [snd] in Hv, Hv2. cbn [argmax_from snd].
    destruct (fgt v2 v) eqn:E.
    + destruct (IH (pre ++ (k, v) :: mid)%list [] k2 v2) as (pre' & k' & v' & post' & Heq & Ha & H1 & H2).
      * now constructor.
      * intros p Hp. apply in_app_or in Hp as [Hp | [<- | Hp]].
        -- apply (fgt_trans v2 v); auto.
        -- exact E.
        -- apply (fgt_fge_trans v2 v); auto.
      * intros p [].
      * exists pre', k', v', post'. repeat split; auto.
        rewrite <- Heq, <- app_assoc. reflexivity.
    + destruct (IH pre (mid ++ [(k2, v2)])%list k v) as (pre' & k' & v' & post' & Heq & Ha & H1 & H2).
      * now constructor.
      * exact Hpre.
      * intros p Hp. apply in_app_or in Hp as [Hp | [<- | []]]; auto.
        now apply not_fgt_fge.
      * exists pre', k', v', post'. repeat split; auto.
        rewrite <- Heq, <- app_assoc. reflexivity.
Qed.

(** X12.  On a column with at least one present value [idxmax] returns the
    label of a row of the column whose value is present and is at least
    every present value of the column. *)
Theorem idxmax_is_maximum (s : list (cell * float)) (p0 : cell * float) :
  In p0 s -> isnan (snd p0) = false ->
  exists k v,
    idxmax s = Ok k /\ In (k, v) s /\ isnan v = false /\
    forall p, In p s -> isnan (snd p) = false -> fge v (snd p) = true.
Proof.
  intros Hin Hp0. unfold idxmax. destruct s as [|hd tl] eqn:Es; [contradiction|].
  rewrite <- Es in *. clear hd tl Es.
  set (f := fun p : cell * float => negb (isnan (snd p))).
  assert (Hf0 : In p0 (filter f s)).
  { apply filter_In. split; [exact Hin | unfold f; now rewrite Hp0]. }
  destruct (filter f s) as [|[k v] t] eqn:Ef; [contradiction|].
  assert (Hall : Forall (fun p => isnan (snd p) = false) ((k, v) :: t)).
  { rewrite <- Ef. apply Forall_forall. intros p Hp.
    apply filter_In in Hp as [_ Hp]. unfold f in Hp. now apply negb_true_iff. }
  destruct (argmax_from_maximum t [] [] k v Hall) as (pre' & k' & v' & post' & Heq & Ha & H1 & H2);
    try (intros p []).
  cbn [app] in Heq.
  assert (Hk' : In (k', v') (filter f s)).
  { rewrite Ef, Heq. apply in_or_app. right. now left. }
  exists k', v'. rewrite Ha. split; [reflexivity|].
  apply filter_In in Hk' as [Hs Hv']. unfold f in Hv'. cbn [snd] in Hv'.
  apply negb_true_iff in Hv'. repeat split; auto.
  intros p Hp Hnp.
  assert (Hpf : In p (filter f s)).
  { apply filter_In. split; [exact Hp | unfold f; now rewrite Hnp]. }
  rewrite Ef, Heq in Hpf. apply in_app_or in Hpf as [Hpf | [<- | Hpf]].
  - specialize (H1 p Hpf). unfold fgt in H1. now apply andb_prop in H1 as [H1 _].
  - now apply fge_refl.
  - now apply H2.
Qed.

Lemma idxmax_is_maximum_witness :
  exists k v,
    idxmax [(CStr "A", NaN); (CStr "B", float_of_Z 3); (CStr "C", float_of_Z 7);
            (CStr "D", float_of_Z 7)] = Ok k /\
    In (k, v) [(CStr "A", NaN); (CStr "B", float_of_Z 3); (CStr "C", float_of_Z 7);
               (CStr "D", float_of_Z 7)] /\
    isnan v = false /\
    forall p,
      In p [(CStr "A", NaN); (CStr "B", float_of_Z 3); (CStr "C", float_of_Z 7);
            (CStr "D", float_of_Z 7)] ->
      isnan (snd p) = false -> fge v (snd p) = true.
Proof.
  apply (idxmax_is_maximum _ (CStr "B", float_of_Z 3)).
  - right. left. reflexivity.
  - reflexivity.
Defined.

Lemma StronglySorted_app_inv {A : Type} (R : A -> A -> Prop) (l1 l2 : list A) :
  StronglySorted R (l1 ++ l2) ->
  forall a b, In a l1 -> In b l2 -> R a b.
Proof.
  induction l1 as [|x t IH]; intros S a b Ha Hb; [contradiction|].
  simpl in S. apply StronglySorted_inv in S as [S Hall].
  destruct Ha as [<- | Ha].
  - rewrite Forall_forall in Hall. apply Hall, in_or_app. now right.
  - now apply IH.
Qed.

Lemma category_agg_StronglySorted (products : DataFrame) (summary : list CategoryRow) :
  category_agg products = Ok summary ->
  StronglySorted (fun a b => revenue_desc (Total_Revenue a) (Total_Revenue b)) summary.
Proof.
  intros H.
  destruct (category_agg_inv _ _ H)
    as (cat & pid & rev & r & mrp & sp & pct & prem & _ & _ & _ & ->).
  unfold revenue_desc. apply sort_by_StronglySorted.
  - intros a b. apply desc_le_total.
  - intros a b c. apply desc_le_trans.
Qed.

(** X13.  The revenue leader of insight 3 is the first row of the category
    summary, whenever that row's revenue is present: sorting by descending
    revenue and then taking [idxmax] of the revenue returns the top row. *)
Theorem top_revenue_is_first_row
        (products : DataFrame) (row : CategoryRow) (rest : list CategoryRow) :
  category_agg products = Ok (row :: rest) ->
  isnan (Total_Revenue row) = false ->
  insight (row :: rest) "Total_Revenue" = Ok (Category row).
Proof.
  intros H Hrow. apply category_agg_StronglySorted in H.
  unfold insight. cbn [summary_column String.eqb Ascii.eqb Bool.eqb bind map].
  apply (idxmax_first_maximum _ [] (map (fun r => (Category r, Total_Revenue r)) rest)
           (Category row) (Total_Revenue row)).
  - reflexivity.
  - exact Hrow.
  - intros p [].
  - intros p Hp. apply in_map_iff in Hp as (r & <- & Hr). cbn [snd].
    pose proof (StronglySorted_app_inv _ [row] rest H row r
                  (or_introl eq_refl) Hr) as Hd.
    unfold revenue_desc, desc_le in Hd.
    destruct (isnan (Total_Revenue r)); [now left|].
    rewrite Hrow in Hd. now right.
Qed.

Lemma top_revenue_is_first_row_witness :
  exists row rest,
    category_agg products_missing_category = Ok (row :: rest) /\
    isnan (Total_Revenue row) = false /\
    Category row = CStr "A" /\
    insight (row :: rest) "Total_Revenue" = Ok (Category row).
Proof.
  eexists. eexists. split; [reflexivity|]. split; [reflexivity|].
  split; [reflexivity|].
  apply (top_revenue_is_first_row products_missing_category); reflexivity.
Defined.

(** X14.  The chart of the top categories shows at most ten rows, the first
    rows of the summary, and each row it shows ranks at or above each row
    it leaves out in descending revenue. *)
Theorem top_cat_largest_revenue (products : DataFrame) (summary : list CategoryRow) :
  category_agg products = Ok summary ->
  List.length (top_cat summary) = Nat.min 10 (List.length summary) /\
  exists rest,
    summary = (top_cat summary ++ rest)%list /\
    forall a b, In a (top_cat summary) -> In b rest ->
                revenue_desc (Total_Revenue a) (Total_Revenue b).
Proof.
  intros H. apply category_agg_StronglySorted in H. unfold top_cat, head.
  split; [apply length_firstn|].
  exists (skipn 10 summary). split; [symmetry; apply firstn_skipn|].
  apply StronglySorted_app_inv. now rewrite firstn_skipn.
Qed.

Lemma top_cat_largest_revenue_witness :
  exists summary rest,
    category_agg products_twelve_categories = Ok summary /\
    List.length summary = 12%nat /\
    List.length (top_cat summary) = Nat.min 10 (List.length summary) /\
    map Category (top_cat summary)
    = [CStr "c12"; CStr "c11"; CStr "c10"; CStr "c09"; CStr "c08"; CStr "c07";
       CStr "c06"; CStr "c05"; CStr "c04"; CStr "c03"] /\
    summary = (top_cat summary ++ rest)%list /\
    map Category rest = [CStr "c02"; CStr "c01"] /\
    forall a b, In a (top_cat summary) -> In b rest ->
                revenue_desc (Total_Revenue a) (Total_Revenue b).
Proof.
  destruct (category_agg products_twelve_categories) as [summary|] eqn:E;
    [|discriminate E].
  destruct (top_cat_largest_revenue products_twelve_categories summary E)
    as (Hlen & rest & Hsum & Hrank).
  exists summary, rest.
  assert (Es : Ok summary = category_agg products_twelve_categories) by now symmetry.
  vm_compute in Es. injection Es as Es.
  assert (Hrest : rest = skipn 10 summary).
  { apply (app_inv_head (top_cat summary)). rewrite <- Hsum.
    unfold top_cat, head. now rewrite firstn_skipn. }
  split; [reflexivity|].
  split; [now rewrite Es|].
  split; [exact Hlen|].
  split; [now rewrite Es|].
  split; [exact Hsum|].
  split; [rewrite Hrest; now rewrite Es | exact Hrank].
Defined.

(** ** The premium cutoff *)

Lemma convex_le (a b x g : Qc) :
  (a <= x)%Qc -> (b <= x)%Qc -> (Q2Qc 0 <= g)%Qc -> (g <= Q2Qc 1)%Qc ->
  ((Q2Qc 1 - g) * a + g * b <= x)%Qc.
Proof.
  intros Ha Hb H0 H1.
  assert (H1g : (Q2Qc 0 <= Q2Qc 1 - g)%Qc) by now apply Qcle_minus_iff in H1.
  replace x with ((Q2Qc 1 - g) * x + g * x)%Qc by ring.
  apply Qcplus_le_compat.
  - rewrite !(Qcmult_comm (Q2Qc 1 - g)). now apply Qcmult_le_compat_r.
  - rewrite !(Qcmult_comm g). now apply Qcmult_le_compat_r.
Qed.

Lemma quantile_le_maximum (l : list float) (q x : Qc) :
  Forall (fun y => isnan y = true \/ isfinite y = true) l ->
  In (Fin x) l ->
  (forall y, In y l -> isnan y = false -> fge (Fin x) y = true) ->
  (Q2Qc 0 <= q)%Qc -> (q <= Q2Qc 1)%Qc ->
  exists c, quantile l q = Fin c /\ (c <= x)%Qc.
Proof.
  intros Hfin Hx Hmax Hq0 Hq1. unfold quantile.
  set (v := sort_by fle (dropna l)).
  assert (Pv : Permutation v (dropna l)) by apply sort_by_Permutation.
  assert (Hv : forall y, In y v -> exists c, y = Fin c /\ (c <= x)%Qc).
  { intros y Hy. apply (Permutation_in _ Pv) in Hy.
    apply filter_In in Hy as [Hy Hn]. apply negb_true_iff in Hn.
    rewrite Forall_forall in Hfin. destruct (Hfin y Hy) as [E|E]; [congruence|].
    destruct y as [c| | |]; try discriminate. exists c. split; [reflexivity|].
    apply fge_Fin. now apply Hmax. }
  assert (Hne : v <> []).
  { intros E. assert (Hi : In (Fin x) v).
    { apply (Permutation_in _ (Permutation_sym Pv)). apply filter_In. now split. }
    rewrite E in Hi. contradiction. }
  destruct v as [|v0 vt] eqn:Ev; [contradiction|]. rewrite <- Ev in *.
  set (n := Z.of_nat (List.length v)).
  assert (Hn : 1 <= n) by (unfold n; rewrite Ev; simpl; lia).
  set (virtual := (Q2Qc (inject_Z (n - 1)) * q)%Qc).
  assert (Hvirt : (this virtual == inject_Z (n - 1) * this q)%Q).
  { unfold virtual, Qcmult, Q2Qc. cbn [this]. now rewrite !Qred_correct. }
  destruct (Qfloor_fraction (n - 1) (this q)) as ((Hp0 & Hp1) & Hg0 & Hg1);
    [lia | | |].
  { unfold Qcle, Q2Qc in Hq0. cbn [this] in Hq0. now rewrite Qred_correct in Hq0. }
  { unfold Qcle, Q2Qc in Hq1. cbn [this] in Hq1. now rewrite Qred_correct in Hq1. }
  assert (Hfl : Qfloor virtual = Qfloor (inject_Z (n - 1) * this q)).
  { apply Qfloor_comp. exact Hvirt. }
  rewrite <- Hfl in Hp0, Hp1, Hg0, Hg1.
  set (previous := Qfloor virtual) in *.
  set (next := Z.min (previous + 1) (n - 1)).
  set (gamma := (virtual - Q2Qc (inject_Z previous))%Qc).
  assert (Hgam : (this gamma == inject_Z (n - 1) * this q - inject_Z previous)%Q).
  { unfold gamma, Qcminus, Qcplus, Qcopp, Q2Qc. cbn [this].
    rewrite !Qred_correct. fold (this virtual). rewrite Hvirt. reflexivity. }
  assert (G0 : (Q2Qc 0 <= gamma)%Qc).
  { unfold Qcle, Q2Qc. cbn [this]. rewrite Qred_correct, Hgam. exact Hg0. }
  assert (G1 : (gamma <= Q2Qc 1)%Qc).
  { unfold Qcle, Q2Qc. cbn [this]. rewrite Qred_correct, Hgam. exact Hg1. }
  assert (Hin : forall z, 0 <= z <= n - 1 -> In (nth (Z.to_nat z) v NaN) v).
  { intros z Hz. apply nth_In. unfold n in Hz. lia. }
  destruct (Hv _ (Hin previous (conj Hp0 Hp1))) as (a & -> & Ha).
  destruct (Hv _ (Hin next ltac:(unfold next; lia))) as (b & -> & Hb).
  destruct (lerp_finite a b gamma) as [_ ->].
  eexists. split; [reflexivity|]. now apply convex_le.
Qed.

(** X15.  When every [MRP_clean] is missing or finite, a product whose
    [MRP_clean] is the largest of the table is flagged premium: the 75th
    percentile never exceeds the maximum, so [Is_premium] is 1 on at least
    one row as soon as one price is present. *)
Theorem largest_mrp_is_premium
        (products : DataFrame) (mrp sp : Series) (m s : list float)
        (i : nat) (x : Qc) :
  getitem products "MRP_clean" = Ok mrp -> as_floats mrp = Ok m ->
  getitem products "SellPrice" = Ok sp -> as_floats sp = Ok s ->
  Forall (fun y => isnan y = true \/ isfinite y = true) m ->
  nth_error m i = Some (Fin x) ->
  (forall y, In y m -> isnan y = false -> fge (Fin x) y = true) ->
  exists p flags,
    feature_engineering products = Ok p /\
    getitem p "Is_premium" = Ok (Int64S flags) /\
    nth_error flags i = Some 1.
Proof.
  intros Hmrp Hm Hsp Hs Hfin Hi Hmax.
  eexists. eexists. split; [exact (feature_engineering_eq _ _ _ _ _ Hmrp Hm Hsp Hs)|].
  split; [apply getitem_setitem_same|].
  rewrite nth_error_map, Hi. cbn [option_map]. f_equal.
  destruct (quantile_le_maximum m (Q2Qc (3 # 4)) x Hfin (nth_error_In _ _ Hi) Hmax)
    as (c & -> & Hc).
  - unfold Qcle. simpl. unfold Qle. simpl. lia.
  - unfold Qcle. simpl. unfold Qle. simpl. lia.
  - apply fge_Fin in Hc. now rewrite Hc.
Qed.

Lemma largest_mrp_is_premium_witness :
  exists p flags,
    feature_engineering scenario_cleaned = Ok p /\
    getitem p "Is_premium" = Ok (Int64S flags) /\
    nth_error flags 0 = Some 1.
Proof.
  apply (largest_mrp_is_premium scenario_cleaned
           (Float64S [float_of_Z 1000; float_of_Z 500; NaN])
           (Int64S [800; 500; 300])
           [float_of_Z 1000; float_of_Z 500; NaN]
           (map float_of_Z [800; 500; 300]) 0 (Q2Qc (inject_Z 1000)));
    try reflexivity.
  - apply Forall_forall.
    intros y [<- | [<- | [<- | []]]]; simpl; auto.
  - intros y [<- | [<- | [<- | []]]] Hy; try reflexivity; discriminate.
Defined.

(** ** Cleaning twice *)

(** X16.  Steps 3.1 to 3.3 are idempotent: run on their own result they
    read the same raw columns, compute the same cleaned columns and return
    the same table. *)
Theorem clean_numeric_idempotent {py : PyText} (data_raw p : DataFrame) :
  clean_numeric data_raw = Ok p -> clean_numeric p = Ok p.
Proof.
  intros H. unfold clean_numeric in H.
  destruct (getitem data_raw "MRP") as [mrp|] eqn:Hm.
  2:{ unfold clean_mrp in H. rewrite Hm in H. discriminate. }
  rewrite (clean_mrp_eq _ _ Hm) in H. cbn [bind] in H.
  unfold clean_sellprice in H.
  rewrite !getitem_setitem_other in H by discriminate.
  destruct (getitem data_raw "SellPrice") as [sp|] eqn:Hs; [|discriminate].
  cbn [bind] in H.
  match type of H with clean_discount ?t = _ => set (p2 := t) in * end.
  destruct (getitem p2 "Discount") as [d|] eqn:Hd.
  2:{ unfold clean_discount in H. rewrite Hd in H. discriminate. }
  rewrite (clean_discount_eq _ _ Hd) in H.
  destruct (mapM float_of_match (map str_extract (astype_str d))) as [l|] eqn:El;
    [|discriminate].
  cbn [bind] in H. injection H as <-.
  set (p := setitem p2 "Discount_pct" (Float64S l)).
  assert (Gm : getitem p "MRP" = Ok mrp) by (unfold p, p2; now getitems).
  assert (Gc : getitem p "MRP_clean"
               = Ok (Float64S (map mrp_clean_text (astype_str mrp))))
    by (unfold p, p2; now getitems).
  assert (Gs : getitem p "SellPrice" = Ok (to_numeric_coerce sp))
    by (unfold p, p2; now getitems).
  assert (Gd : getitem p "Discount" = Ok d).
  { unfold p. rewrite getitem_setitem_other by discriminate. exact Hd. }
  assert (Gp : getitem p "Discount_pct" = Ok (Float64S l))
    by (unfold p; now getitems).
  unfold clean_numeric. rewrite (clean_mrp_eq _ _ Gm). cbn [bind].
  rewrite setitem_setitem, (setitem_present _ _ _ Gc).
  unfold clean_sellprice. rewrite Gs. cbn [bind].
  rewrite to_numeric_coerce_idem, (setitem_present _ _ _ Gs).
  rewrite (clean_discount_eq _ _ Gd), El. cbn [bind].
  now rewrite (setitem_present _ _ _ Gp).
Qed.

Lemma clean_numeric_idempotent_witness :
  clean_numeric (py := plain_text) scenario = Ok scenario_cleaned /\
  clean_numeric (py := plain_text) scenario_cleaned = Ok scenario_cleaned.
Proof.
  split; [reflexivity|].
  apply (clean_numeric_idempotent (py := plain_text) scenario). reflexivity.
Defined.

(** ** Empty and missing in the summaries *)

(** X17.  The category summary is empty exactly when no product has a
    Category (in particular for a table without rows), and on an empty
    summary each of the three insights raises [ValueError]. *)
Theorem empty_summary_iff_no_category
        (products : DataFrame) (summary : list CategoryRow) (cat : Series) :
  category_agg products = Ok summary ->
  getitem products "Category" = Ok cat ->
  (summary = [] <-> forall k, In k (cells cat) -> isna k = true) /\
  (summary = [] ->
   insight summary "Avg_Discount_pct" = Raise ValueError /\
   insight summary "Premium_share" = Raise ValueError /\
   insight summary "Total_Revenue" = Raise ValueError).
Proof.
  intros H Hc. pose proof (category_agg_keys _ _ _ H Hc) as P. split.
  - split.
    + intros -> k Hk. destruct (isna k) eqn:E; [reflexivity|].
      assert (Hin : In k (group_keys (cells cat))) by now apply group_keys_In.
      apply (Permutation_in _ (Permutation_sym P)) in Hin. contradiction.
    + intros Hall. destruct summary as [|row rest]; [reflexivity|]. exfalso.
      assert (Hin : In (Category row) (group_keys (cells cat))).
      { apply (Permutation_in _ P). now left. }
      apply group_keys_In in Hin as [Hin Hna]. rewrite (Hall _ Hin) in Hna.
      discriminate.
  - intros ->. repeat split.
Qed.

(** A table of products none of which has a Category. *)
Lemma empty_summary_iff_no_category_witness :
  exists summary,
    category_agg
      (mkDataFrame 1
         [("Product ID", Int64S [1]); ("Category", ObjectS [None]);
          ("SellPrice", Float64S [float_of_Z 800]);
          ("MRP_clean", Float64S [float_of_Z 1000]);
          ("Discount_pct", Float64S [float_of_Z 20]);
          ("Revenue", Float64S [float_of_Z 800]);
          ("Is_premium", Int64S [1])]) = Ok summary /\
    summary = [] /\
    insight summary "Avg_Discount_pct" = Raise ValueError.
Proof.
  eexists. split; [reflexivity|].
  destruct (empty_summary_iff_no_category
              (mkDataFrame 1
                 [("Product ID", Int64S [1]); ("Category", ObjectS [None]);
                  ("SellPrice", Float64S [float_of_Z 800]);
                  ("MRP_clean", Float64S [float_of_Z 1000]);
                  ("Discount_pct", Float64S [float_of_Z 20]);
                  ("Revenue", Float64S [float_of_Z 800]);
                  ("Is_premium", Int64S [1])])
              [] (ObjectS [None]) eq_refl eq_refl) as [Hiff Hins].
  split; [reflexivity|]. exact (proj1 (Hins eq_refl)).
Defined.

Lemma isfinite_isnan (x : float) : isfinite x = true -> isnan x = false.
Proof. now destruct x. Qed.

(** X18.  A category none of whose products has a revenue gets the total
    0, not a missing total: the missing revenues are skipped and the sum of
    nothing is 0.  When the revenues are whole numbers whose absolute values
    add up to at most [2 ^ 53], every row of the category summary has a
    finite [Total_Revenue] and the revenue leader is the first row of the
    summary. *)
Theorem total_revenue_always_present
        (products : DataFrame) (summary : list CategoryRow)
        (cat rev : Series) (r : list float) :
  category_agg products = Ok summary ->
  getitem products "Category" = Ok cat ->
  getitem products "Revenue" = Ok rev ->
  as_floats rev = Ok r ->
  (forall row, In row summary ->
     (forall x, In x (group_of (Category row) (cells cat) r) -> isnan x = true) ->
     Total_Revenue row = float_of_Z 0) /\
  (forall zs, whole_values r zs -> abs_sum zs <= 2 ^ 53 ->
     Forall (fun row => isfinite (Total_Revenue row) = true) summary /\
     forall row rest, summary = row :: rest ->
                      insight summary "Total_Revenue" = Ok (Category row)).
Proof.
  intros H Hc Hr Hf.
  destruct (category_agg_inv _ _ H)
    as (cat' & pid & rev' & r' & mrp & sp & pct & prem & Hc' & Hr' & Hf' & E).
  rewrite Hc in Hc'. injection Hc' as <-.
  rewrite Hr in Hr'. injection Hr' as <-.
  rewrite Hf in Hf'. injection Hf' as <-.
  assert (Hrow : forall row, In row summary ->
                   Total_Revenue row = nansum (group_of (Category row) (cells cat) r)).
  { rewrite E. intros row Hin.
    apply (Permutation_in _ (sort_by_Permutation _ _)) in Hin.
    apply in_map_iff in Hin as (k & <- & _). reflexivity. }
  split.
  - intros row Hin Hall. rewrite (Hrow _ Hin). unfold nansum, dropna.
    replace (filter (fun x => negb (isnan x)) (group_of (Category row) (cells cat) r))
      with (@nil float); [reflexivity|].
    symmetry. induction (group_of (Category row) (cells cat) r) as [|x t IH];
      [reflexivity|].
    simpl. rewrite (Hall x (or_introl eq_refl)). simpl.
    apply IH. intros y Hy. apply Hall. now right.
  - intros zs Hw Hb.
    destruct (group_totals_whole (cells cat) r zs (2 ^ 53) Hw Hb) as [Hk _].
    assert (Hall : Forall (fun row => isfinite (Total_Revenue row) = true) summary).
    { apply Forall_forall. intros row Hin. rewrite (Hrow _ Hin).
      now rewrite (proj1 (Hk (Category row))). }
    split; [exact Hall|].
    intros row rest ->. apply category_agg_StronglySorted in H.
    inversion Hall as [|? ? Hfin _]; subst.
    assert (Hnn : isnan (Total_Revenue row) = false) by now apply isfinite_isnan.
    unfold insight. cbn [summary_column String.eqb Ascii.eqb Bool.eqb bind map].
    apply (idxmax_first_maximum _ [] (map (fun r => (Category r, Total_Revenue r)) rest)
             (Category row) (Total_Revenue row)).
    + reflexivity.
    + exact Hnn.
    + intros p [].
    + intros p Hp. apply in_map_iff in Hp as (r0 & <- & Hr0). cbn [snd].
      pose proof (StronglySorted_app_inv _ [row] rest H row r0
                    (or_introl eq_refl) Hr0) as Hd.
      unfold revenue_desc, desc_le in Hd.
      destruct (isnan (Total_Revenue r0)); [now left|].
      rewrite Hnn in Hd. now right.
Qed.

Lemma total_revenue_always_present_witness :
  exists summary,
    category_agg products_missing_category = Ok summary /\
    map (fun row => (Category row, Total_Revenue row)) summary
    = [(CStr "A", float_of_Z 800); (CStr "C", float_of_Z 800); (CStr "B", float_of_Z 0)] /\
    group_of (CStr "B") (cells (ObjectS [Some "A"; None; Some "B"; Some "C"]))
             [float_of_Z 800; float_of_Z 500; NaN; float_of_Z 800] = [NaN] /\
    Forall (fun row => isfinite (Total_Revenue row) = true) summary /\
    insight summary "Total_Revenue" = Ok (CStr "A").
Proof.
  eexists. split; [reflexivity|]. split; [reflexivity|]. split; [reflexivity|].
  destruct (total_revenue_always_present products_missing_category _
              (ObjectS [Some "A"; None; Some "B"; Some "C"])
              (Float64S [float_of_Z 800; float_of_Z 500; NaN; float_of_Z 800])
              _ eq_refl eq_refl eq_refl eq_refl) as (_ & HZ).
  destruct (HZ [Some 800; Some 500; None; Some 800]) as [Hfin Hins].
  - repeat constructor.
  - vm_compute. discriminate.
  - split; [exact Hfin|]. exact (Hins _ _ eq_refl).
Defined.
